(** * whatsapp-message-server: a shallow embedding of [index.js]

    The server keeps one WhatsApp session in three module-level variables
    ([client], [isClientInitializing], [qrCodeContent]), exposes
    [POST /send-messages] and [GET /link-device], and relays the session's
    events over a socket.  This development embeds

    - [parseExcelFile] (lines 85-103),
    - the [POST /send-messages] handler with its paced send loop
      (lines 106-152),
    - [initializeWhatsAppClient] with the four event handlers it registers
      (lines 28-79), the [GET /link-device] handler (lines 155-169) and the
      event loop that interleaves them,

    and proves the properties stated about them. *)

From Stdlib Require Import List String Ascii Bool Arith ZArith NArith Lia.
From Stdlib Require Import DecimalString.
Import ListNotations.

Set Implicit Arguments.

(** ** JavaScript strings

    A JavaScript string is a sequence of UTF-16 code units. *)

Definition jsstring := list N.

(** A literal of the source, written with one-byte characters. *)
Definition js (s : string) : jsstring :=
  map N_of_ascii (list_ascii_of_string s).

(** [WhiteSpace] and [LineTerminator] of ECMAScript: what
    [String.prototype.trim] removes. *)
Definition isWhiteSpace (c : N) : bool :=
  ((9 <=? c) && (c <=? 13)          (* TAB, LF, VT, FF, CR *)
   || (c =? 32)                     (* SPACE *)
   || (c =? 160)                    (* NO-BREAK SPACE *)
   || (c =? 5760)                   (* U+1680 *)
   || ((8192 <=? c) && (c <=? 8202))  (* U+2000 .. U+200A *)
   || (c =? 8232) || (c =? 8233)    (* U+2028, U+2029 *)
   || (c =? 8239)                   (* U+202F *)
   || (c =? 8287)                   (* U+205F *)
   || (c =? 12288)                  (* U+3000 *)
   || (c =? 65279))%N.              (* U+FEFF *)

Fixpoint trimStart (s : jsstring) : jsstring :=
  match s with
  | [] => []
  | c :: s' => if isWhiteSpace c then trimStart s' else s
  end.

Definition trimEnd (s : jsstring) : jsstring := rev (trimStart (rev s)).

(** [s.trim()] *)
Definition trim (s : jsstring) : jsstring := trimEnd (trimStart s).

(** The class [[0-9]] of the regular expression. *)
Definition isDigit (c : N) : bool := ((48 <=? c) && (c <=? 57))%N.

(** [/^[0-9]+$/.test(s)]: the expression has no flags, so [^] and [$] are
    the two ends of the input. *)
Definition test_numeric (s : jsstring) : bool :=
  match s with
  | [] => false
  | _ :: _ => forallb isDigit s
  end.

(** ** Spreadsheet cells *)

(** A number of a cell.  [Number.prototype.toString] prints an integer of
    magnitude at most 2^53 in plain decimal; for any other number the cell
    carries the text it prints. *)
Inductive JsNumber :=
| Int (z : Z)
| Printed (text : jsstring).

(** [num.toString()] *)
Definition Number_toString (n : JsNumber) : jsstring :=
  match n with
  | Int z => js (NilZero.string_of_int (Z.to_int z))
  | Printed text => text
  end.

(** What [row[0]] can be in the array of arrays that
    [sheet_to_json(sheet, { header: 1 })] returns: nothing for an empty
    cell, a number, a string, a boolean, and [null] for the error cell
    [#NULL!]. *)
Inductive Cell :=
| CUndefined
| CNumber (n : JsNumber)
| CString (s : jsstring)
| CBoolean (b : bool)
| CNull.

Definition Row := list Cell.

(** [row[0]]: [undefined] past the end of the row. *)
Definition first_column (row : Row) : Cell := nth 0 row CUndefined.

(** [num !== undefined] *)
Definition is_defined (num : Cell) : bool :=
  match num with CUndefined => false | _ => true end.

(** [typeof num === "number" ? num.toString() : num] *)
Definition stringify (num : Cell) : Cell :=
  match num with
  | CNumber n => CString (Number_toString n)
  | _ => num
  end.

(** [.filter((num) => /^[0-9]+$/.test(num.trim()))]: only a string has a
    [trim] method, on any other value the callback throws a [TypeError]
    ([None]). *)
Fixpoint filter_numeric (nums : list Cell) : option (list jsstring) :=
  match nums with
  | [] => Some []
  | CString s :: rest =>
      match filter_numeric rest with
      | Some kept => Some (if test_numeric (trim s) then s :: kept else kept)
      | None => None
      end
  | _ :: _ => None
  end.

(** [parseExcelFile], from the rows that [sheet_to_json] returns.  [None]
    is a thrown exception. *)
Definition parseExcelFile (data : list Row) : option (list jsstring) :=
  let column :=
    map stringify
      (filter is_defined
         (map first_column
            (skipn 1 data))) in
  match filter_numeric column with
  | Some kept => Some (map trim kept)
  | None => None
  end.

(** The spreadsheet of the example. *)
Definition example_sheet : list Row :=
  [ [CString (js "MobileNumber")];
    [CNumber (Int 919999999999)];
    [CString (js "abc")];
    [CString (js " 888 ")] ].

(** ** POST /send-messages (lines 106-152) *)

(** The session object, as far as the server looks at it: which [Client]
    it is (they are numbered in the order [new Client] makes them) and
    whether the library has set its [info], which it does when the session
    is ready. *)
Record Client := { cid : nat; info : bool }.

(** [!client || !client.info] of line 120, negated. *)
Definition ready (client : option Client) : bool :=
  match client with
  | Some c => info c
  | None => false
  end.

(** The request after [upload.single("file")]: the rows of the first sheet
    of [req.file] when a file was uploaded, and [req.body.message]. *)
Record SendRequest := {
  req_file : option (list Row);
  req_message : option jsstring
}.

(** [!message]: [undefined] and the empty string are falsy. *)
Definition message_missing (m : option jsstring) : bool :=
  match m with
  | Some (_ :: _) => false
  | _ => true
  end.

(** The JSON bodies the handlers send: [{ error }] and [{ message }]. *)
Inductive Body :=
| ErrorBody (text : jsstring)
| MessageBody (text : jsstring).

Record Response := { status : nat; body : Body }.

(** What one run of the handler does, in order.  The two [console.log]
    calls of [parseExcelFile] are left out. *)
Inductive SendEffect :=
| LogCount (total : nat)                               (* line 126 *)
| LogSending (number : jsstring) (position total : nat) (* line 130 *)
| SendMessage (chatId message : jsstring)              (* line 135 *)
| LogSent (number : jsstring)                          (* line 136 *)
| LogWaiting                                           (* line 140 *)
| Delay (ms : Z)                                       (* line 143 *)
| LogError.                                            (* line 149 *)

(** What iteration [index] of the loop meets at line 135.  [client] is a
    module variable that the [disconnected] handler may reset to [null]
    while the loop is suspended, and then [client.sendMessage] throws a
    [TypeError] before anything is sent; otherwise the message is handed to
    the session and the promise resolves or rejects.  (At index 0 the
    variable was just tested at line 120, so [ClientGone] cannot occur
    there.) *)
Inductive Attempt :=
| ClientGone
| Resolves
| Rejects.

(** [`${number}@c.us`] *)
Definition chat_id (number : jsstring) : jsstring := number ++ js "@c.us".

(** The [for] loop of lines 129-145, from iteration [index] on, over the
    entries still to come.  The boolean is [false] when an exception left
    the loop. *)
Fixpoint send_loop (env : nat -> Attempt) (message : jsstring) (total : nat)
    (index : nat) (numbers : list jsstring) : list SendEffect * bool :=
  match numbers with
  | [] => ([], true)
  | number :: rest =>
      match env index with
      | ClientGone => ([LogSending number (index + 1) total], false)
      | Rejects =>
          ([LogSending number (index + 1) total;
            SendMessage (chat_id number) message], false)
      | Resolves =>
          let pause :=
            if index <? total - 1 then [LogWaiting; Delay 15000] else [] in
          let '(later, completed) :=
            send_loop env message total (index + 1) rest in
          (LogSending number (index + 1) total
             :: SendMessage (chat_id number) message
             :: LogSent number
             :: pause ++ later,
           completed)
      end
  end.

(** The handler.  [client] is the module variable as the request finds it;
    [env] is what the later iterations meet. *)
Definition send_messages (client : option Client) (env : nat -> Attempt)
    (req : SendRequest) : list SendEffect * Response :=
  match req_file req, message_missing (req_message req) with
  | Some data, false =>
      let message := match req_message req with Some m => m | None => [] end in
      match parseExcelFile data with
      | None =>
          ([LogError],
           {| status := 500; body := ErrorBody (js "Failed to send messages.") |})
      | Some mobileNumbers =>
          if Nat.eqb (List.length mobileNumbers) 0 then
            ([],
             {| status := 400;
                body := ErrorBody (js "No valid mobile numbers found.") |})
          else if negb (ready client) then
            ([],
             {| status := 500;
                body := ErrorBody
                          (js "WhatsApp client is not initialized or ready.") |})
          else
            let '(effects, completed) :=
              send_loop env message (List.length mobileNumbers) 0 mobileNumbers in
            if completed then
              (LogCount (List.length mobileNumbers) :: effects,
               {| status := 200;
                  body := MessageBody (js "Messages sent successfully!") |})
            else
              (LogCount (List.length mobileNumbers) :: effects ++ [LogError],
               {| status := 500;
                  body := ErrorBody (js "Failed to send messages.") |})
      end
  | _, _ =>
      ([],
       {| status := 400; body := ErrorBody (js "File and message are required.") |})
  end.

(** *** Reading a run *)

(** The messages handed to the session, in order. *)
Fixpoint sends (t : list SendEffect) : list (jsstring * jsstring) :=
  match t with
  | [] => []
  | SendMessage chatId message :: t' => (chatId, message) :: sends t'
  | _ :: t' => sends t'
  end.

(** The pauses taken, in order. *)
Fixpoint delays (t : list SendEffect) : list Z :=
  match t with
  | [] => []
  | Delay ms :: t' => ms :: delays t'
  | _ :: t' => delays t'
  end.

(** How many sends completed: line 136 is reached once for each. *)
Fixpoint sentCount (t : list SendEffect) : nat :=
  match t with
  | [] => 0
  | LogSent _ :: t' => S (sentCount t')
  | _ :: t' => sentCount t'
  end.

(** The send and pause steps alone, in the order they were taken. *)
Fixpoint schedule (t : list SendEffect) : list SendEffect :=
  match t with
  | [] => []
  | SendMessage c m :: t' => SendMessage c m :: schedule t'
  | Delay ms :: t' => Delay ms :: schedule t'
  | _ :: t' => schedule t'
  end.

(** The recipient line 130 announced last before the run reached the
    [catch] block of line 148. *)
Fixpoint last_announced (t : list SendEffect) (seen : option jsstring)
    : option jsstring :=
  match t with
  | [] => None
  | LogSending number _ _ :: t' => last_announced t' (Some number)
  | LogError :: _ => seen
  | _ :: t' => last_announced t' seen
  end.

Definition firstFailure (t : list SendEffect) : option jsstring :=
  last_announced t None.

(** What a run without failure looks like: a send to each recipient, a
    pause of 15000 ms between two sends. *)
Fixpoint paced (message : jsstring) (numbers : list jsstring)
    : list SendEffect :=
  match numbers with
  | [] => []
  | [number] => [SendMessage (chat_id number) message]
  | number :: rest =>
      SendMessage (chat_id number) message :: Delay 15000 :: paced message rest
  end.

(** ** The session (lines 17-19 and 28-79) *)

(** The [console] lines of the session code. *)
Inductive LogLine :=
| AlreadyInitializing                  (* line 30 *)
| DestroyingExisting                   (* line 38 *)
| InitializingNew                      (* line 43 *)
| QrGenerated                          (* line 47 *)
| ClientIsReady                        (* line 53 *)
| AuthenticationFailed (msg : jsstring) (* line 59 *)
| ClientDisconnected                   (* line 68 *)
| ErrorInitializing                    (* line 75 *)
| InitializingForQr.                   (* line 164 *)

(** What the session code does to the outside. *)
Inductive Effect :=
| Console (line : LogLine)
| ClientDestroy (c : nat)              (* line 39: [client.destroy()] *)
| NewClient (c : nat)                  (* line 44: [new Client(...)] *)
| ClientInitialize (c : nat)           (* line 73: [client.initialize()] *)
| IoEmit (event : jsstring) (payload : option jsstring) (* [io.emit] *)
| Respond (request : nat) (reply : Response).

(** The module variables of lines 17-19, the number of [Client] objects
    made so far, and everything done so far, oldest first. *)
Record Sys := {
  client : option Client;
  isClientInitializing : bool;
  qrCodeContent : option jsstring;
  created : nat;
  trace : list Effect
}.

(** The variables as lines 17-19 declare them. *)
Definition initial : Sys :=
  {| client := None;
     isClientInitializing := false;
     qrCodeContent := None;
     created := 0;
     trace := [] |}.

Definition set_client (c : option Client) (s : Sys) : Sys :=
  {| client := c;
     isClientInitializing := isClientInitializing s;
     qrCodeContent := qrCodeContent s;
     created := created s;
     trace := trace s |}.

Definition set_initializing (b : bool) (s : Sys) : Sys :=
  {| client := client s;
     isClientInitializing := b;
     qrCodeContent := qrCodeContent s;
     created := created s;
     trace := trace s |}.

Definition set_qr (q : option jsstring) (s : Sys) : Sys :=
  {| client := client s;
     isClientInitializing := isClientInitializing s;
     qrCodeContent := q;
     created := created s;
     trace := trace s |}.

Definition emit (e : Effect) (s : Sys) : Sys :=
  {| client := client s;
     isClientInitializing := isClientInitializing s;
     qrCodeContent := qrCodeContent s;
     created := created s;
     trace := trace s ++ [e] |}.

(** [new Client(...)]: the next object. *)
Definition new_client (s : Sys) : Sys :=
  {| client := Some {| cid := created s; info := false |};
     isClientInitializing := isClientInitializing s;
     qrCodeContent := qrCodeContent s;
     created := S (created s);
     trace := trace s ++ [NewClient (created s)] |}.

(** The two [await]s of [initializeWhatsAppClient]. *)
Inductive InitPoint :=
| AwaitDestroy                         (* line 39 *)
| AwaitInitialize.                     (* line 73 *)

(** How an awaited promise settles. *)
Inductive Outcome :=
| Fulfilled
| Rejected.

(** Where a piece of code stands when it gives control back. *)
Inductive Completion :=
| Suspended (point : InitPoint)
| Returned
| Thrown.

(** Lines 43-73: make the new client, register its handlers, start the
    handshake and wait for it. *)
Definition construct_and_initialize (s : Sys) : Sys * Completion :=
  let s := emit (Console InitializingNew) s in
  let c := created s in
  let s := new_client s in
  let s := emit (ClientInitialize c) s in
  (s, Suspended AwaitInitialize).

(** The [try] block of lines 35-73, up to its first [await]. *)
Definition try_block (s : Sys) : Sys * Completion :=
  let s := set_initializing true s in
  match client s with
  | Some c =>
      let s := emit (Console DestroyingExisting) s in
      let s := emit (ClientDestroy (cid c)) s in
      (s, Suspended AwaitDestroy)
  | None => construct_and_initialize s
  end.

(** The [try] block from the [await] it was suspended at. *)
Definition try_block_resume (point : InitPoint) (o : Outcome) (s : Sys)
    : Sys * Completion :=
  match o, point with
  | Rejected, _ => (s, Thrown)
  | Fulfilled, AwaitDestroy => construct_and_initialize (set_client None s)
  | Fulfilled, AwaitInitialize => (s, Returned)
  end.

(** The [catch] block of lines 74-78 around a run of the [try] block. *)
Definition catch_block (r : Sys * Completion) : Sys * Completion :=
  match r with
  | (s, Thrown) =>
      let s := emit (Console ErrorInitializing) s in
      let s := set_initializing false s in
      let s := set_client None s in
      (s, Returned)
  | _ => r
  end.

(** [initializeWhatsAppClient()], up to its first [await]. *)
Definition initializeWhatsAppClient (s : Sys) : Sys * Completion :=
  if isClientInitializing s then
    (emit (Console AlreadyInitializing) s, Returned)
  else catch_block (try_block s).

(** [initializeWhatsAppClient] from the [await] it was suspended at, once
    the promise has settled. *)
Definition initialize_resume (point : InitPoint) (o : Outcome) (s : Sys)
    : Sys * Completion :=
  catch_block (try_block_resume point o s).

(** *** The handlers of lines 46-71 *)

Definition on_qr (qr : jsstring) (s : Sys) : Sys :=
  let s := emit (Console QrGenerated) s in
  let s := set_qr (Some qr) s in
  emit (IoEmit (js "qr") (Some qr)) s.

Definition on_ready (s : Sys) : Sys :=
  let s := emit (Console ClientIsReady) s in
  let s := set_qr None s in
  emit (IoEmit (js "ready") None) s.

Definition on_auth_failure (msg : jsstring) (s : Sys) : Sys :=
  let s := emit (Console (AuthenticationFailed msg)) s in
  let s := set_qr None s in
  emit (IoEmit (js "auth_failure")
          (Some (js "Authentication failed. Please re-scan the QR code."))) s.

Definition on_disconnected (s : Sys) : Sys :=
  let s := emit (Console ClientDisconnected) s in
  let s := set_qr None s in
  set_client None s.

(** ** GET /link-device (lines 155-169) *)

(** [if (qrCodeContent)]: [null] and the empty string are falsy. *)
Definition outstanding (q : option jsstring) : option jsstring :=
  match q with
  | Some (c :: q') => Some (c :: q')
  | _ => None
  end.

Definition link_resent : Response :=
  {| status := 200;
     body := MessageBody
               (js "QR code already generated. Scan to link the device.") |}.

Definition link_initiated : Response :=
  {| status := 200;
     body := MessageBody
               (js "Device linking initiated. QR code will be generated.") |}.

(** Lines 166-168, which run once the awaited call is over. *)
Definition after_initialize (request : nat) (r : Sys * Completion)
    : Sys * Completion :=
  match r with
  | (s, Returned) => (emit (Respond request link_initiated) s, Returned)
  | _ => r
  end.

(** The handler, up to its first suspension.  The call of line 165 runs at
    once up to its own first [await]; the handler then waits for it. *)
Definition link_device (request : nat) (s : Sys) : Sys * Completion :=
  match outstanding (qrCodeContent s) with
  | Some qr =>
      let s := emit (IoEmit (js "qr") (Some qr)) s in
      (emit (Respond request link_resent) s, Returned)
  | None =>
      let s := emit (Console InitializingForQr) s in
      after_initialize request (initializeWhatsAppClient s)
  end.

(** The handler from the [await] of line 165. *)
Definition link_device_resume (request : nat) (point : InitPoint)
    (o : Outcome) (s : Sys) : Sys * Completion :=
  after_initialize request (initialize_resume point o s).

(** ** The event loop

    Node runs one piece of code at a time, each up to its next [await]; a
    step below is one such run together with the continuations that it
    makes ready at once.  [POST /send-messages] writes none of the session
    variables and is not among the steps. *)

(** The events a [Client] object sends to the handlers registered on it. *)
Inductive ClientEvent :=
| Qr (qr : jsstring)
| Ready
| AuthFailure (msg : jsstring)
| Disconnected.

(** The library sets [info] on the object that becomes ready, some time
    before it emits [ready].  The step of the [ready] event below does
    both, so the model says nothing about a request that arrives in
    between. *)
Definition mark_ready (c : nat) (s : Sys) : Sys :=
  match client s with
  | Some held =>
      if Nat.eqb (cid held) c
      then set_client (Some {| cid := c; info := true |}) s
      else s
  | None => s
  end.

(** The handlers are closures over the module variables: they run for
    whichever object emits, current or not. *)
Definition handle (c : nat) (e : ClientEvent) (s : Sys) : Sys :=
  match e with
  | Qr qr => on_qr qr s
  | Ready => on_ready (mark_ready c s)
  | AuthFailure msg => on_auth_failure msg s
  | Disconnected => on_disconnected s
  end.

(** The calls of [initializeWhatsAppClient] made so far, in the order they
    were made: the call of line 177, then one entry for each
    [GET /link-device]. *)
Inductive Task :=
| InitCall (point : InitPoint)   (* the call of line 177, suspended *)
| LinkCall (point : InitPoint)   (* a handler suspended at line 165 *)
| Finished                       (* returned *)
| Failed.                        (* its promise rejected *)

Record Server := { sys : Sys; tasks : list Task }.

Definition settle (make : InitPoint -> Task) (r : Sys * Completion)
    : Sys * Task :=
  match r with
  | (s, Suspended point) => (s, make point)
  | (s, Returned) => (s, Finished)
  | (s, Thrown) => (s, Failed)
  end.

Fixpoint update (i : nat) (t : Task) (l : list Task) : list Task :=
  match l, i with
  | [], _ => []
  | _ :: l', 0 => t :: l'
  | x :: l', S i' => x :: update i' t l'
  end.

(** The server once the module body has run: line 177 made the first
    call. *)
Definition boot : Server :=
  let '(s, t) := settle InitCall (initializeWhatsAppClient initial) in
  {| sys := s; tasks := [t] |}.

Inductive Event :=
| GetLinkDevice                        (* a request arrives *)
| Settles (task : nat) (o : Outcome)   (* the promise [task] waits for *)
| ClientEmits (c : nat) (e : ClientEvent).

(** One step; [None] when the event cannot happen (no such suspended call,
    no such object). *)
Definition step (e : Event) (srv : Server) : option Server :=
  match e with
  | GetLinkDevice =>
      let request := List.length (tasks srv) in
      let '(s, t) := settle LinkCall (link_device request (sys srv)) in
      Some {| sys := s; tasks := tasks srv ++ [t] |}
  | Settles i o =>
      match nth_error (tasks srv) i with
      | Some (InitCall point) =>
          let '(s, t) :=
            settle InitCall (initialize_resume point o (sys srv)) in
          Some {| sys := s; tasks := update i t (tasks srv) |}
      | Some (LinkCall point) =>
          let '(s, t) :=
            settle LinkCall (link_device_resume i point o (sys srv)) in
          Some {| sys := s; tasks := update i t (tasks srv) |}
      | _ => None
      end
  | ClientEmits c e =>
      if c <? created (sys srv)
      then Some {| sys := handle c e (sys srv); tasks := tasks srv |}
      else None
  end.

Fixpoint run (events : list Event) (srv : Server) : option Server :=
  match events with
  | [] => Some srv
  | e :: events' =>
      match step e srv with
      | Some srv' => run events' srv'
      | None => None
      end
  end.

(** *** Reading a server *)

Definition suspended (t : Task) : bool :=
  match t with
  | InitCall _ | LinkCall _ => true
  | _ => false
  end.

(** The calls of [initializeWhatsAppClient] that have passed the guard and
    have not finished. *)
Definition in_flight (srv : Server) : nat :=
  List.length (filter suspended (tasks srv)).

(** The handshakes started. *)
Fixpoint handshakes (t : list Effect) : nat :=
  match t with
  | [] => 0
  | ClientInitialize _ :: t' => S (handshakes t')
  | _ :: t' => handshakes t'
  end.

(** The replies sent to a request. *)
Fixpoint replies (request : nat) (t : list Effect) : list Response :=
  match t with
  | [] => []
  | Respond r reply :: t' =>
      if Nat.eqb r request then reply :: replies request t'
      else replies request t'
  | _ :: t' => replies request t'
  end.

(** *** Examples of requests *)

(** [req.body.message] when it is a string, the empty string otherwise. *)
Definition message_of (req : SendRequest) : jsstring :=
  match req_message req with
  | Some m => m
  | None => []
  end.

(** What [parseExcelFile] extracts from the file of the request; nothing
    when there is no file or the extraction throws. *)
Definition recipients_of (req : SendRequest) : list jsstring :=
  match req_file req with
  | Some data =>
      match parseExcelFile data with
      | Some recipients => recipients
      | None => []
      end
  | None => []
  end.

Definition ready_client : option Client := Some {| cid := 0; info := true |}.

Definition example_request : SendRequest :=
  {| req_file := Some example_sheet; req_message := Some (js "hello") |}.

(** A sheet with a header and no number in it. *)
Definition empty_request : SendRequest :=
  {| req_file := Some [[CString (js "MobileNumber")]; [CString (js "abc")]];
     req_message := Some (js "hello") |}.

(** Every send resolves. *)
Definition all_resolve (i : nat) : Attempt := Resolves.

(** The session is dropped during the first pause. *)
Definition client_lost (i : nat) : Attempt :=
  match i with
  | 1 => ClientGone
  | _ => Resolves
  end.

(** The first send is rejected. *)
Definition first_rejects (i : nat) : Attempt :=
  match i with
  | 0 => Rejects
  | _ => Resolves
  end.

(** The second send is rejected. *)
Definition second_rejects (i : nat) : Attempt :=
  match i with
  | 1 => Rejects
  | _ => Resolves
  end.

(** One for a suspended call. *)
Definition weight (t : Task) : nat := if suspended t then 1 else 0.

(** *** Reachable servers *)

Definition reachable (srv : Server) : Prop :=
  exists events, run events boot = Some srv.

(** What every reachable server satisfies. *)
Record consistent (srv : Server) : Prop := {
  one_at_most : in_flight srv <= 1;
  guard_clear :
    isClientInitializing (sys srv) = false ->
    in_flight srv = 0 /\ client (sys srv) = None;
  none_failed : ~ In Failed (tasks srv);
  none_destroyed : forall c, ~ In (ClientDestroy c) (trace (sys srv))
}.

(** *** More readings *)

(** Whether a cell has a [trim] method. *)
Definition is_string (cell : Cell) : bool :=
  match cell with
  | CString _ => true
  | _ => false
  end.

(** The cells that reach line 98 as they are and have no [trim] method:
    a boolean and [null] ([null !== undefined] holds, and neither is a
    number). *)
Definition no_trim (cell : Cell) : bool :=
  match cell with
  | CBoolean _ | CNull => true
  | _ => false
  end.

(** How many attempts resolve in a row, from iteration [index] on, among
    the next [n]. *)
Fixpoint leading_resolves (env : nat -> Attempt) (index n : nat) : nat :=
  match n with
  | 0 => 0
  | S n' =>
      match env index with
      | Resolves => S (leading_resolves env (index + 1) n')
      | _ => 0
      end
  end.

(** One when the attempt hands its message to the session and the promise
    is rejected. *)
Definition handed_over (a : Attempt) : nat :=
  match a with
  | Rejects => 1
  | _ => 0
  end.

(** What the attempt that fails does at line 135: it hands the message
    to the session when the promise is then rejected, and nothing when
    [client.sendMessage] throws on a [client] that was reset. *)
Definition failed_attempt (a : Attempt) (message number : jsstring)
    : list SendEffect :=
  match a with
  | Rejects => [SendMessage (chat_id number) message]
  | _ => []
  end.

(** What a run looks like that stops at the last of [numbers]: a send and
    a pause of 15000 ms for each recipient before it, then the attempt
    that fails, with no pause after it. *)
Fixpoint stopped (a : Attempt) (message : jsstring) (numbers : list jsstring)
    : list SendEffect :=
  match numbers with
  | [] => []
  | [number] => failed_attempt a message number
  | number :: rest =>
      SendMessage (chat_id number) message :: Delay 15000
        :: stopped a message rest
  end.

(** The buffer handed to [parseExcelFile]: [xlsx.read] throws on it, or
    it is a workbook and [sheet_to_json] returns the rows of its first
    sheet. *)
Inductive Upload :=
| Unreadable
| Workbook (data : list Row).

(** [parseExcelFile(buffer)], lines 86-102 as a whole. *)
Definition parseExcelBuffer (upload : Upload) : option (list jsstring) :=
  match upload with
  | Unreadable => None
  | Workbook data => parseExcelFile data
  end.

(** What the handler finds in [req].  [req.body] is an object, filled
    from a multipart body together with [req.file], or it is undefined,
    as it is for a request that is not multipart.  (A multipart body that
    multer refuses, such as a file under another field name, never
    reaches the handler.) *)
Inductive HandlerInput :=
| NoBody
| Multipart (req : SendRequest).

(** The handler on whatever reaches it.  Line 107 reads
    [req.body.message] before the [try] block: without a body it throws
    there, nothing catches it, and no reply is sent ([None]). *)
Definition post_send_messages (client : option Client) (env : nat -> Attempt)
    (input : HandlerInput) : list SendEffect * option Response :=
  match input with
  | NoBody => ([], None)
  | Multipart req =>
      let '(effects, reply) := send_messages client env req in
      (effects, Some reply)
  end.

(** The recipients of two runs of rows, one after the other; an exception
    in either is an exception. *)
Definition both (a b : option (list jsstring)) : option (list jsstring) :=
  match a, b with
  | Some x, Some y => Some (x ++ y)
  | _, _ => None
  end.

(** *** What the session variables keep *)

(** The three broadcasts of the session code. *)
Definition known_broadcast (event : jsstring) (payload : option jsstring)
    : Prop :=
  (event = js "qr" /\ payload <> None)
  \/ (event = js "ready" /\ payload = None)
  \/ (event = js "auth_failure"
      /\ payload
         = Some (js "Authentication failed. Please re-scan the QR code.")).

Record coherent (s : Sys) : Prop := {
  every_client_initialized : handshakes (trace s) = created s;
  client_is_latest : forall c, client s = Some c -> S (cid c) = created s;
  payload_was_broadcast :
    forall q, qrCodeContent s = Some q ->
              In (IoEmit (js "qr") (Some q)) (trace s);
  broadcasts_are_known :
    forall event payload,
      In (IoEmit event payload) (trace s) -> known_broadcast event payload
}.

(** The effects that are neither a broadcast nor the start of a handshake. *)
Definition quiet (e : Effect) : bool :=
  match e with
  | Console _ | ClientDestroy _ | Respond _ _ => true
  | _ => false
  end.

(** *** What the requests get *)

(** A server on which the first handshake succeeded and the session was
    then dropped. *)
Definition after_success : Server :=
  match run [Settles 0 Fulfilled; ClientEmits 0 Ready;
             ClientEmits 0 Disconnected] boot with
  | Some srv => srv
  | None => boot
  end.

(** A server on which the first handshake was rejected. *)
Definition after_failure : Server :=
  match run [Settles 0 Rejected] boot with
  | Some srv => srv
  | None => boot
  end.

(** How many replies request [i] has got when its entry is [t]; entry 0
    is the call of line 177, which answers nobody. *)
Definition answered (i : nat) (t : Task) : nat :=
  match t, i with
  | Finished, S _ => 1
  | _, _ => 0
  end.

Definition destroying (t : Task) : bool :=
  match t with
  | InitCall AwaitDestroy | LinkCall AwaitDestroy => true
  | _ => false
  end.

Record orderly (srv : Server) : Prop := {
  first_is_boot :
    exists t, nth_error (tasks srv) 0 = Some t /\ forall p, t <> LinkCall p;
  others_are_requests :
    forall i p, nth_error (tasks srv) (S i) <> Some (InitCall p);
  never_destroying :
    forall i t, nth_error (tasks srv) i = Some t -> destroying t = false;
  replies_counted :
    forall i t,
      nth_error (tasks srv) i = Some t ->
      List.length (replies i (trace (sys srv))) = answered i t;
  replies_none :
    forall i, List.length (tasks srv) <= i -> replies i (trace (sys srv)) = [];
  replies_200 :
    forall i reply, In reply (replies i (trace (sys srv))) -> status reply = 200
}.

(** * Properties *)

(** ** Extraction *)

Example parse_example_sheet :
  parseExcelFile example_sheet = Some [js "919999999999"; js "888"].
Proof. reflexivity. Qed.

(** A cell that is not a string makes the extraction throw. *)
Example parse_boolean_cell :
  parseExcelFile [[CString (js "MobileNumber")]; [CBoolean true]] = None.
Proof. reflexivity. Qed.

Lemma filter_numeric_kept (column : list Cell) :
  forall kept,
    filter_numeric column = Some kept ->
    Forall (fun s => test_numeric (trim s) = true) kept.
Proof.
  induction column as [|cell rest IH]; simpl; intros kept H.
  - inversion H. constructor.
  - destruct cell as [ |n|s|b| ]; try discriminate.
    destruct (filter_numeric rest) as [kept'|]; [|discriminate].
    specialize (IH kept' eq_refl).
    destruct (test_numeric (trim s)) eqn:E; inversion H; subst; auto.
Qed.

(** C7. The sheet with rows ["MobileNumber"], [919999999999], ["abc"],
    [" 888 "] yields exactly ["919999999999", "888"]; and whatever the
    sheet, every recipient that [parseExcelFile] returns matches
    [^[0-9]+$]. *)
Theorem parseExcelFile_recipients :
  parseExcelFile example_sheet = Some [js "919999999999"; js "888"]
  /\ forall data recipients,
       parseExcelFile data = Some recipients ->
       Forall (fun r => test_numeric r = true) recipients.
Proof.
  split; [reflexivity|].
  intros data recipients H. unfold parseExcelFile in H.
  destruct (filter_numeric _) as [kept|] eqn:E; [|discriminate].
  inversion H; subst. apply filter_numeric_kept in E.
  rewrite Forall_map. exact E.
Qed.

Lemma parseExcelFile_recipients_witness :
  Forall (fun r => test_numeric r = true) [js "919999999999"; js "888"].
Proof.
  apply (proj2 parseExcelFile_recipients example_sheet). reflexivity.
Defined.

(** ** The send loop *)

Lemma last_announced_no_error (t : list SendEffect) :
  forall seen, ~ In LogError t -> last_announced t seen = None.
Proof.
  induction t as [|e t IH]; intros seen H; [reflexivity|].
  destruct e; simpl in *; try (apply IH; tauto).
  exfalso. apply H. now left.
Qed.

Section SendLoop.

Variable env : nat -> Attempt.
Variable message : jsstring.

Lemma paced_cons (number : jsstring) (rest : list jsstring) :
  paced message (number :: rest)
  = SendMessage (chat_id number) message
      :: (if Nat.eqb (List.length rest) 0 then [] else [Delay 15000])
      ++ paced message rest.
Proof. destruct rest; reflexivity. Qed.

Lemma pause_schedule (index total : nat) :
  schedule (if index <? total - 1 then [LogWaiting; Delay 15000] else [])
  = if index <? total - 1 then [Delay 15000] else [].
Proof. destruct (index <? total - 1); reflexivity. Qed.

Lemma schedule_app (a b : list SendEffect) :
  schedule (a ++ b) = schedule a ++ schedule b.
Proof.
  induction a as [|e a IH]; simpl; [reflexivity|].
  destruct e; simpl; rewrite ?IH; reflexivity.
Qed.

Lemma sentCount_app (a b : list SendEffect) :
  sentCount (a ++ b) = sentCount a + sentCount b.
Proof.
  induction a as [|e a IH]; simpl; [reflexivity|].
  destruct e; simpl; rewrite ?IH; reflexivity.
Qed.

Lemma sends_schedule (t : list SendEffect) : sends (schedule t) = sends t.
Proof.
  induction t as [|e t IH]; simpl; [reflexivity|].
  destruct e; simpl; rewrite ?IH; reflexivity.
Qed.

Lemma delays_schedule (t : list SendEffect) : delays (schedule t) = delays t.
Proof.
  induction t as [|e t IH]; simpl; [reflexivity|].
  destruct e; simpl; rewrite ?IH; reflexivity.
Qed.

Lemma sends_paced (numbers : list jsstring) :
  sends (paced message numbers)
  = map (fun number => (chat_id number, message)) numbers.
Proof.
  induction numbers as [|number rest IH]; [reflexivity|].
  rewrite paced_cons. simpl. destruct (Nat.eqb _ 0); simpl; now rewrite IH.
Qed.

Lemma delays_paced (numbers : list jsstring) :
  delays (paced message numbers) = repeat 15000%Z (List.length numbers - 1).
Proof.
  induction numbers as [|number rest IH]; [reflexivity|].
  rewrite paced_cons. simpl. rewrite Nat.sub_0_r.
  destruct rest as [|number' rest']; [reflexivity|].
  simpl in *. rewrite IH, Nat.sub_0_r. reflexivity.
Qed.

(** Line 149 is outside the loop. *)
Lemma send_loop_no_error (numbers : list jsstring) :
  forall total index,
    ~ In LogError (fst (send_loop env message total index numbers)).
Proof.
  induction numbers as [|number rest IH]; intros total index; [exact id|].
  cbn [send_loop]. specialize (IH total (index + 1)).
  destruct (env index); simpl.
  - intros [H|[]]. discriminate.
  - destruct (send_loop env message total (index + 1) rest) as [later done].
    simpl in *. intros [H|[H|[H|H]]]; try discriminate.
    apply in_app_or in H. destruct H as [H|H]; [|exact (IH H)].
    destruct (index <? total - 1); simpl in H; [|exact H].
    destruct H as [H|[H|[]]]; discriminate.
  - intros [H|[H|[]]]; discriminate.
Qed.

(** The loop when no send fails. *)
Lemma send_loop_all_resolve (numbers : list jsstring) :
  forall index total,
    total = index + List.length numbers ->
    (forall i, index <= i < total -> env i = Resolves) ->
    exists effects,
      send_loop env message total index numbers = (effects, true)
      /\ schedule effects = paced message numbers
      /\ sentCount effects = List.length numbers.
Proof.
  induction numbers as [|number rest IH]; intros index total Htotal Hall.
  - exists []. auto.
  - simpl in Htotal.
    destruct (IH (index + 1) total) as (later & Hrun & Hsched & Hcount).
    + lia.
    + intros i Hi. apply Hall. lia.
    + cbn [send_loop]. rewrite (Hall index) by lia. rewrite Hrun.
      eexists. split; [reflexivity|]. cbn [schedule sentCount].
      rewrite schedule_app, sentCount_app, pause_schedule, Hsched, Hcount.
      rewrite paced_cons. split.
      * f_equal. f_equal.
        destruct rest; simpl in *.
        -- replace (index <? total - 1) with false; [reflexivity|].
           symmetry. apply Nat.ltb_ge. lia.
        -- replace (index <? total - 1) with true; [reflexivity|].
           symmetry. apply Nat.ltb_lt. lia.
      * destruct (index <? total - 1); reflexivity.
Qed.

Lemma stopped_rejects (numbers : list jsstring) :
  stopped Rejects message numbers = paced message numbers.
Proof.
  induction numbers as [|number [|number' rest] IH]; try reflexivity.
  change (stopped Rejects message (number :: number' :: rest))
    with (SendMessage (chat_id number) message :: Delay 15000
            :: stopped Rejects message (number' :: rest)).
  rewrite IH. reflexivity.
Qed.

Lemma sends_stopped (a : Attempt) (numbers : list jsstring) :
  sends (stopped a message numbers)
  = map (fun number => (chat_id number, message))
      (firstn (List.length numbers - 1 + handed_over a) numbers).
Proof.
  induction numbers as [|number [|number' rest] IH].
  - cbn. now rewrite firstn_nil.
  - destruct a; reflexivity.
  - change (stopped a message (number :: number' :: rest))
      with (SendMessage (chat_id number) message :: Delay 15000
              :: stopped a message (number' :: rest)).
    cbn [sends]. rewrite IH. cbn [List.length].
    replace (S (S (List.length rest)) - 1 + handed_over a)
      with (S (S (List.length rest) - 1 + handed_over a)) by lia.
    reflexivity.
Qed.

Lemma delays_stopped (a : Attempt) (numbers : list jsstring) :
  delays (stopped a message numbers)
  = repeat 15000%Z (List.length numbers - 1).
Proof.
  induction numbers as [|number [|number' rest] IH].
  - reflexivity.
  - destruct a; reflexivity.
  - change (stopped a message (number :: number' :: rest))
      with (SendMessage (chat_id number) message :: Delay 15000
              :: stopped a message (number' :: rest)).
    cbn [delays]. rewrite IH. cbn [List.length].
    replace (S (S (List.length rest)) - 1)
      with (S (S (List.length rest) - 1)) by lia.
    reflexivity.
Qed.

(** The loop when the attempt at entry [j] (counted from 0) is the first
    that does not resolve. *)
Lemma send_loop_first_failure (numbers : list jsstring) :
  forall index total j seen,
    total = index + List.length numbers ->
    j < List.length numbers ->
    (forall i, index <= i < index + j -> env i = Resolves) ->
    env (index + j) <> Resolves ->
    exists effects,
      send_loop env message total index numbers = (effects, false)
      /\ schedule effects
         = stopped (env (index + j)) message (firstn (S j) numbers)
      /\ sentCount effects = j
      /\ last_announced (effects ++ [LogError]) seen = nth_error numbers j.
Proof.
  induction numbers as [|number rest IH];
    intros index total j seen Htotal Hj Hbefore Hfail; simpl in Hj; [lia|].
  simpl in Htotal. destruct j as [|j].
  - rewrite Nat.add_0_r in *. cbn [send_loop firstn stopped].
    destruct (env index); [ |contradiction| ];
      (eexists; split; [reflexivity|]); repeat split.
  - destruct (IH (index + 1) total j (Some number))
      as (later & Hrun & Hsched & Hcount & Hlast).
    + lia.
    + lia.
    + intros i Hi. apply Hbefore. lia.
    + replace (index + 1 + j) with (index + S j) by lia. exact Hfail.
    + replace (index + 1 + j) with (index + S j) in Hsched by lia.
      cbn [send_loop]. rewrite (Hbefore index) by lia. rewrite Hrun.
      eexists. split; [reflexivity|]. cbn [schedule sentCount].
      rewrite schedule_app, sentCount_app, pause_schedule, Hsched, Hcount.
      replace (index <? total - 1) with true
        by (symmetry; apply Nat.ltb_lt; lia).
      repeat split.
      * destruct rest; [simpl in Hj; lia|]. reflexivity.
      * simpl. exact Hlast.
Qed.

End SendLoop.

(** ** POST /send-messages *)

Section SendMessages.

Variable client : option Client.
Variable env : nat -> Attempt.
Variable req : SendRequest.
Variable data : list Row.
Variable message : jsstring.
Variable recipients : list jsstring.

Hypothesis file_present : req_file req = Some data.
Hypothesis message_present : req_message req = Some message.
Hypothesis message_not_empty : message <> [].
Hypothesis extracted : parseExcelFile data = Some recipients.

Let N := List.length recipients.

Lemma message_is_present : message_missing (req_message req) = false.
Proof.
  rewrite message_present. destruct message; [congruence|reflexivity].
Qed.

(** The handler once the two tests of lines 116 and 120 have passed. *)
Lemma send_messages_loop :
  1 <= N ->
  ready client = true ->
  send_messages client env req
  = let '(effects, completed) := send_loop env message N 0 recipients in
    if completed then
      (LogCount N :: effects,
       {| status := 200;
          body := MessageBody (js "Messages sent successfully!") |})
    else
      (LogCount N :: effects ++ [LogError],
       {| status := 500;
          body := ErrorBody (js "Failed to send messages.") |}).
Proof.
  intros HN Hready. unfold send_messages.
  rewrite file_present, message_is_present, extracted, message_present.
  fold N. destruct (Nat.eqb_spec N 0) as [E|_]; [lia|].
  rewrite Hready. reflexivity.
Qed.

(** C2. With N >= 1 recipients and every send succeeding, the run hands
    N messages to the session, one per recipient in the order of the
    list; its sends and pauses are send, pause, send, ..., send with a
    pause of 15000 ms after every send but the last, N-1 pauses in all;
    N sends completed, the [catch] block is not reached, and the reply is
    the 200 of line 147. *)
Theorem run_all_sent :
  1 <= N ->
  ready client = true ->
  (forall i, i < N -> env i = Resolves) ->
  let '(effects, reply) := send_messages client env req in
  sends effects = map (fun number => (chat_id number, message)) recipients
  /\ List.length (sends effects) = N
  /\ schedule effects = paced message recipients
  /\ delays effects = repeat 15000%Z (N - 1)
  /\ sentCount effects = N
  /\ firstFailure effects = None
  /\ reply = {| status := 200;
                body := MessageBody (js "Messages sent successfully!") |}.
Proof.
  intros HN Hready Hall. rewrite (send_messages_loop HN Hready).
  destruct (@send_loop_all_resolve env message recipients 0 N)
    as (effects & Hrun & Hsched & Hcount); [reflexivity| |].
  { intros i Hi. apply Hall. lia. }
  pose proof (send_loop_no_error env message recipients N 0) as Hclean.
  rewrite Hrun in *. unfold firstFailure. cbn [fst last_announced] in *.
  rewrite (@last_announced_no_error effects None Hclean). cbn [sends delays schedule sentCount].
  rewrite <- (sends_schedule effects), <- (delays_schedule effects), Hsched.
  rewrite sends_paced, delays_paced, length_map. repeat split; auto.
Qed.

(** C3, amended.  With N >= 1 recipients, if the k-th attempt
    (1 <= k <= N) is the first that does not resolve, the run stops
    there: its sends and pauses are a send and a pause of 15000 ms for
    each of the first k-1 recipients, then the failing attempt and no
    pause after it, so k-1 pauses in all and nothing for the recipients
    after k; k-1 sends completed.  k messages were handed to the session
    when the promise of the k-th send was rejected, and k-1 when [client]
    had been reset during the pause, so that [client.sendMessage] threw.
    The reply is the 500 of line 150, the same for every k: the count and
    the failing recipient are not in it, they can only be read off the
    console, where line 136 was reached k-1 times and the recipient that
    line 130 named last before the [catch] block is recipient k. *)
Theorem run_first_failure (k : nat) :
  1 <= k <= N ->
  (forall i, i < k - 1 -> env i = Resolves) ->
  env (k - 1) <> Resolves ->
  ready client = true ->
  let '(effects, reply) := send_messages client env req in
  schedule effects = stopped (env (k - 1)) message (firstn k recipients)
  /\ sends effects
     = map (fun number => (chat_id number, message))
         (firstn (k - 1 + handed_over (env (k - 1))) recipients)
  /\ List.length (sends effects) = k - 1 + handed_over (env (k - 1))
  /\ (env (k - 1) = Rejects ->
      schedule effects = paced message (firstn k recipients)
      /\ List.length (sends effects) = k)
  /\ (env (k - 1) = ClientGone -> List.length (sends effects) = k - 1)
  /\ delays effects = repeat 15000%Z (k - 1)
  /\ sentCount effects = k - 1
  /\ firstFailure effects = nth_error recipients (k - 1)
  /\ (exists number, nth_error recipients (k - 1) = Some number)
  /\ reply = {| status := 500;
                body := ErrorBody (js "Failed to send messages.") |}.
Proof.
  intros Hk Hbefore Hfail Hready.
  assert (HN : 1 <= N) by lia.
  rewrite (send_messages_loop HN Hready).
  destruct (@send_loop_first_failure env message recipients 0 N (k - 1) None)
    as (effects & Hrun & Hsched & Hcount & Hlast);
    [reflexivity|fold N; lia| | |].
  { intros i Hi. apply Hbefore. lia. }
  { exact Hfail. }
  replace (S (k - 1)) with k in Hsched by lia. cbn [Nat.add] in Hsched.
  rewrite Hrun. unfold firstFailure.
  cbn [sends delays schedule sentCount last_announced].
  rewrite <- (sends_schedule (effects ++ _)), <- (delays_schedule (effects ++ _)).
  rewrite schedule_app, sentCount_app. cbn [schedule sentCount].
  rewrite app_nil_r, Nat.add_0_r, Hsched.
  rewrite sends_stopped, delays_stopped, length_map, !length_firstn.
  fold N. rewrite (Nat.min_l k N) by lia.
  assert (Hh : handed_over (env (k - 1)) <= 1)
    by (destruct (env (k - 1)); cbn; lia).
  rewrite firstn_firstn. rewrite (Nat.min_l _ k) by lia.
  repeat match goal with |- _ /\ _ => split end; auto.
  - intros E. rewrite E. split; [apply stopped_rejects | cbn; lia].
  - intros E. rewrite E. cbn. lia.
  - destruct (nth_error recipients (k - 1)) eqn:E; [eauto|].
    apply nth_error_None in E. fold N in E. lia.
Qed.

(** C8. With a file and a message but no recipient extracted, the reply
    is 400 "No valid mobile numbers found." and nothing is sent,
    whatever the session is: the test of line 116 comes before the test
    of line 120, whose 500 is never the answer here. *)
Theorem no_recipients_400 :
  recipients = [] ->
  send_messages client env req
  = ([], {| status := 400;
            body := ErrorBody (js "No valid mobile numbers found.") |})
  /\ sends (fst (send_messages client env req)) = []
  /\ snd (send_messages client env req)
     <> {| status := 500;
           body := ErrorBody
                     (js "WhatsApp client is not initialized or ready.") |}.
Proof.
  intros Hnone.
  assert (E : send_messages client env req
              = ([], {| status := 400;
                        body := ErrorBody
                                  (js "No valid mobile numbers found.") |})).
  { unfold send_messages.
    rewrite file_present, message_is_present, extracted, Hnone.
    reflexivity. }
  rewrite E. repeat split. simpl. discriminate.
Qed.

End SendMessages.

Lemma run_all_sent_witness :
  let '(effects, reply) :=
    send_messages ready_client all_resolve example_request in
  sends effects
  = map (fun number => (chat_id number, js "hello"))
      [js "919999999999"; js "888"]
  /\ List.length (sends effects) = 2
  /\ schedule effects = paced (js "hello") [js "919999999999"; js "888"]
  /\ delays effects = repeat 15000%Z (2 - 1)
  /\ sentCount effects = 2
  /\ firstFailure effects = None
  /\ reply = {| status := 200;
                body := MessageBody (js "Messages sent successfully!") |}.
Proof.
  apply (@run_all_sent ready_client all_resolve example_request example_sheet
           (js "hello") [js "919999999999"; js "888"]);
    try reflexivity; [discriminate | simpl; lia].
Defined.

Lemma run_first_failure_witness :
  let '(effects, reply) :=
    send_messages ready_client client_lost example_request in
  schedule effects
  = stopped (client_lost (2 - 1)) (js "hello")
      (firstn 2 [js "919999999999"; js "888"])
  /\ sends effects
     = map (fun number => (chat_id number, js "hello"))
         (firstn (2 - 1 + handed_over (client_lost (2 - 1)))
            [js "919999999999"; js "888"])
  /\ List.length (sends effects) = 2 - 1 + handed_over (client_lost (2 - 1))
  /\ (client_lost (2 - 1) = Rejects ->
      schedule effects
      = paced (js "hello") (firstn 2 [js "919999999999"; js "888"])
      /\ List.length (sends effects) = 2)
  /\ (client_lost (2 - 1) = ClientGone -> List.length (sends effects) = 2 - 1)
  /\ delays effects = repeat 15000%Z (2 - 1)
  /\ sentCount effects = 2 - 1
  /\ firstFailure effects = nth_error [js "919999999999"; js "888"] (2 - 1)
  /\ (exists number,
        nth_error [js "919999999999"; js "888"] (2 - 1) = Some number)
  /\ reply = {| status := 500;
                body := ErrorBody (js "Failed to send messages.") |}.
Proof.
  apply (@run_first_failure ready_client client_lost example_request
           example_sheet (js "hello") [js "919999999999"; js "888"]);
    try reflexivity; try discriminate; simpl; try lia.
  intros i Hi. destruct i as [|i]; [reflexivity | lia].
Defined.

(** C3 as stated fails.  When [disconnected] resets [client] during the
    pause before the second attempt, that attempt is the first to fail and
    only one message has been handed to the session, not two. *)
Lemma first_failure_sends_fewer :
  ~ (forall (env : nat -> Attempt) (k : nat),
        1 <= k <= 2 ->
        (forall i, i < k - 1 -> env i = Resolves) ->
        env (k - 1) <> Resolves ->
        List.length
          (sends (fst (send_messages ready_client env example_request)))
        = k).
Proof.
  intros H. specialize (H client_lost 2).
  assert (E : List.length
                (sends (fst (send_messages ready_client client_lost
                               example_request))) = 1) by reflexivity.
  rewrite H in E; [discriminate E|lia| |discriminate].
  intros [|i] Hi; [reflexivity|simpl in Hi; lia].
Qed.

(** The reply does not tell which send failed: it is the same when the
    first send is rejected and when the second is. *)
Example reply_same_for_every_failure :
  snd (send_messages ready_client first_rejects example_request)
  = snd (send_messages ready_client second_rejects example_request).
Proof. reflexivity. Qed.

Lemma no_recipients_400_witness :
  send_messages None all_resolve empty_request
  = ([], {| status := 400;
            body := ErrorBody (js "No valid mobile numbers found.") |})
  /\ sends (fst (send_messages None all_resolve empty_request)) = []
  /\ snd (send_messages None all_resolve empty_request)
     <> {| status := 500;
           body := ErrorBody
                     (js "WhatsApp client is not initialized or ready.") |}.
Proof.
  apply (@no_recipients_400 None all_resolve empty_request
           [[CString (js "MobileNumber")]; [CString (js "abc")]]
           (js "hello") []);
    try reflexivity. discriminate.
Defined.

(** When [disconnected] resets [client] during a pause, the next iteration
    throws before it hands anything to the session. *)
Example run_client_lost :
  let '(effects, reply) :=
    send_messages ready_client client_lost example_request in
  sends effects = [(js "919999999999@c.us", js "hello")]
  /\ delays effects = [15000%Z]
  /\ sentCount effects = 1
  /\ status reply = 500.
Proof. cbn. auto. Qed.

Lemma send_loop_sends (env : nat -> Attempt) (message : jsstring)
    (total : nat) (numbers : list jsstring) :
  forall index,
  exists k,
    sends (fst (send_loop env message total index numbers))
    = map (fun number => (chat_id number, message)) (firstn k numbers).
Proof.
  induction numbers as [|number rest IH]; intros index.
  - exists 0. reflexivity.
  - cbn [send_loop]. destruct (env index).
    + exists 0. reflexivity.
    + destruct (IH (index + 1)) as (k & Hk).
      destruct (send_loop env message total (index + 1) rest)
        as [later completed].
      exists (S k). simpl in *. rewrite <- Hk.
      destruct (index <? total - 1); reflexivity.
    + exists 1. reflexivity.
Qed.

Lemma sends_app (a b : list SendEffect) : sends (a ++ b) = sends a ++ sends b.
Proof.
  induction a as [|e a IH]; simpl; [reflexivity|].
  destruct e; simpl; rewrite ?IH; reflexivity.
Qed.

(** C10. In every run of the handler the messages handed to the session
    go, in order, to the first so many recipients extracted, each address
    being the recipient followed by ["@c.us"]; such an address is never
    the bare recipient. *)
Theorem send_address_suffixed :
  (forall client env req,
      exists k,
        sends (fst (send_messages client env req))
        = map (fun number => (number ++ js "@c.us", message_of req))
            (firstn k (recipients_of req)))
  /\ forall number : jsstring, number ++ js "@c.us" <> number.
Proof.
  split.
  - intros client env req. unfold send_messages, recipients_of, message_of.
    destruct (req_file req) as [data|]; [|exists 0; reflexivity].
    destruct (message_missing (req_message req));
      [exists 0; destruct (parseExcelFile data); reflexivity|].
    destruct (parseExcelFile data) as [recipients|]; [|exists 0; reflexivity].
    destruct (Nat.eqb (List.length recipients) 0); [exists 0; reflexivity|].
    destruct (negb (ready client)); [exists 0; reflexivity|].
    destruct (send_loop_sends env
                match req_message req with Some m => m | None => [] end
                (List.length recipients) recipients 0) as (k & Hk).
    destruct (send_loop _ _ _ _ _) as [effects completed].
    exists k. simpl in Hk.
    destruct completed; simpl; rewrite ?sends_app, ?app_nil_r; exact Hk.
  - intros number H. apply (f_equal (@List.length N)) in H.
    rewrite length_app in H. simpl in H. lia.
Qed.

(** ** The session *)

Lemma initialize_guarded (s : Sys) :
  isClientInitializing s = true ->
  initializeWhatsAppClient s = (emit (Console AlreadyInitializing) s, Returned).
Proof. unfold initializeWhatsAppClient. now intros ->. Qed.

Lemma initialize_absent (s : Sys) :
  isClientInitializing s = false ->
  client s = None ->
  initializeWhatsAppClient s
  = construct_and_initialize (set_initializing true s).
Proof.
  unfold initializeWhatsAppClient, try_block. intros -> H.
  cbn [client set_initializing]. rewrite H. reflexivity.
Qed.

Lemma initialize_suspends (s s1 : Sys) (point : InitPoint) :
  initializeWhatsAppClient s = (s1, Suspended point) ->
  isClientInitializing s = false /\ isClientInitializing s1 = true.
Proof.
  unfold initializeWhatsAppClient, try_block.
  destruct (isClientInitializing s); [discriminate|].
  cbn [client set_initializing].
  destruct (client s); cbn; intros H; inversion H; subst; auto.
Qed.

Lemma initialize_never_throws (s : Sys) :
  snd (initializeWhatsAppClient s) <> Thrown.
Proof.
  unfold initializeWhatsAppClient, try_block.
  destruct (isClientInitializing s); cbn; [discriminate|].
  destruct (client s); cbn; discriminate.
Qed.

Lemma resume_never_throws (point : InitPoint) (o : Outcome) (s : Sys) :
  snd (initialize_resume point o s) <> Thrown.
Proof. destruct point, o; cbn; discriminate. Qed.

Lemma handshakes_app (a b : list Effect) :
  handshakes (a ++ b) = handshakes a + handshakes b.
Proof.
  induction a as [|e a IH]; simpl; [reflexivity|].
  destruct e; simpl; rewrite ?IH; reflexivity.
Qed.

Lemma replies_app (request : nat) (a b : list Effect) :
  replies request (a ++ b) = replies request a ++ replies request b.
Proof.
  induction a as [|e a IH]; simpl; [reflexivity|].
  destruct e as [ | | | | |r reply]; simpl; rewrite ?IH; try reflexivity.
  destruct (Nat.eqb r request); simpl; now rewrite ?IH.
Qed.

(** *** Counting the suspended calls *)

Lemma in_flight_app (l : list Task) (t : Task) :
  List.length (filter suspended (l ++ [t]))
  = List.length (filter suspended l) + weight t.
Proof.
  rewrite filter_app, length_app. unfold weight. simpl.
  destruct (suspended t); reflexivity.
Qed.

Lemma in_flight_update (l : list Task) :
  forall i old t,
    nth_error l i = Some old ->
    List.length (filter suspended (update i t l)) + weight old
    = List.length (filter suspended l) + weight t.
Proof.
  induction l as [|x l IH]; intros [|i] old t H; simpl in H; try discriminate.
  - inversion H; subst. unfold weight. simpl.
    destruct (suspended old), (suspended t); simpl; lia.
  - specialize (IH i old t H). simpl.
    destruct (suspended x); simpl; lia.
Qed.

Lemma update_In (l : list Task) :
  forall i t x, In x (update i t l) -> x = t \/ In x l.
Proof.
  induction l as [|y l IH]; intros [|i] t x H; simpl in *; try tauto.
  - destruct H; auto.
  - destruct H as [H|H]; auto. apply IH in H. tauto.
Qed.

Lemma update_nth (l : list Task) :
  forall i t old, nth_error l i = Some old -> nth_error (update i t l) i = Some t.
Proof.
  induction l as [|y l IH]; intros [|i] t old H; simpl in *;
    try discriminate; eauto.
Qed.

(** *** The invariant *)

Lemma boot_consistent : consistent boot.
Proof.
  split; cbn.
  - lia.
  - discriminate.
  - intros [H|[]]. discriminate.
  - intros c H. repeat (destruct H as [H|H]; [discriminate|]). exact H.
Qed.

(** Closes a goal from [H : In (ClientDestroy c) t] when [t] is the old
    trace, which holds no such effect by [Hd], followed by effects that are
    not of that kind. *)
Ltac trace_clean Hd c H :=
  cbn in H; rewrite <- ?app_assoc in H;
  first
    [ exact (Hd c H)
    | apply in_app_or in H; destruct H as [H|H];
      [ exact (Hd c H)
      | repeat (destruct H as [H|H]; [discriminate|]); exact H ] ].

Lemma step_consistent (e : Event) (srv srv' : Server) :
  consistent srv -> step e srv = Some srv' -> consistent srv'.
Proof.
  intros [Hone Hclear Hfailed Hdestroyed] Hstep.
  destruct srv as [s pool]. unfold in_flight in *. cbn [sys tasks] in *.
  destruct e as [ |i o|c ev]; cbn [step sys tasks] in Hstep.
  - (* GET /link-device *)
    unfold link_device in Hstep.
    destruct (outstanding (qrCodeContent s)) as [qr|].
    + inversion Hstep; subst; clear Hstep. split; cbn.
      * rewrite in_flight_app. cbn. lia.
      * intros H. rewrite in_flight_app. cbn. rewrite Nat.add_0_r. auto.
      * intros H. apply in_app_or in H. destruct H as [H|[H|[]]]; [auto|discriminate].
      * intros c H. trace_clean Hdestroyed c H.
    + destruct (isClientInitializing s) eqn:Hflag.
      * rewrite initialize_guarded in Hstep by exact Hflag.
        inversion Hstep; subst; clear Hstep. split; cbn.
        -- rewrite in_flight_app. cbn. lia.
        -- congruence.
        -- intros H. apply in_app_or in H. destruct H as [H|[H|[]]]; [auto|discriminate].
        -- intros c H. trace_clean Hdestroyed c H.
      * destruct (Hclear eq_refl) as [Hzero Hnone].
        rewrite initialize_absent in Hstep by (cbn; assumption).
        inversion Hstep; subst; clear Hstep. split; cbn.
        -- rewrite in_flight_app. cbn. lia.
        -- discriminate.
        -- intros H. apply in_app_or in H. destruct H as [H|[H|[]]]; [auto|discriminate].
        -- intros c H. trace_clean Hdestroyed c H.
  - (* a promise settles *)
    destruct (nth_error pool i) as [old|] eqn:Hnth; [|discriminate].
    assert (Hflag : suspended old = true -> isClientInitializing s = true).
    { intros Hs. destruct (isClientInitializing s) eqn:E; [reflexivity|].
      destruct (Hclear eq_refl) as [Hzero _].
      pose proof (in_flight_update pool i Finished Hnth) as Hu.
      unfold weight in Hu. rewrite Hs in Hu. cbn in Hu. lia. }
    assert (Hcount : suspended old = true ->
                     forall t, List.length (filter suspended (update i t pool))
                               = weight t).
    { intros Hs t. pose proof (in_flight_update pool i t Hnth) as Hu.
      pose proof (in_flight_update pool i Finished Hnth) as Hv.
      unfold weight in *. rewrite Hs in *. cbn in Hv. lia. }
    destruct old as [point|point| | ]; try discriminate;
      specialize (Hflag eq_refl); specialize (Hcount eq_refl);
      destruct point, o; cbn in Hstep; inversion Hstep; subst; clear Hstep;
      (split; cbn;
       [ rewrite Hcount; cbn; lia
       | try discriminate; try congruence; intros _; rewrite Hcount; auto
       | intros H; apply update_In in H; destruct H as [H|H];
         [discriminate | auto]
       | intros c H; trace_clean Hdestroyed c H ]).
  - (* a client emits *)
    destruct (c <? created s); [|discriminate].
    inversion Hstep; subst; clear Hstep. split; cbn.
    + exact Hone.
    + intros H.
      assert (E : isClientInitializing (handle c ev s) = isClientInitializing s).
      { destruct ev; cbn; try reflexivity. unfold mark_ready.
        destruct (client s) as [held|]; [|reflexivity].
        destruct (Nat.eqb (cid held) c); reflexivity. }
      rewrite E in H. destruct (Hclear H) as [Hzero Hnone]. split; [exact Hzero|].
      destruct ev; cbn; try assumption; try reflexivity.
      unfold mark_ready. rewrite Hnone. exact Hnone.
    + exact Hfailed.
    + intros c' H. destruct ev; cbn in H;
        [ | unfold mark_ready in H; destruct (client s) as [held|];
            [destruct (Nat.eqb (cid held) c)|] | | ];
        trace_clean Hdestroyed c' H.
Qed.

Lemma run_consistent (events : list Event) :
  forall srv srv',
    consistent srv -> run events srv = Some srv' -> consistent srv'.
Proof.
  induction events as [|e events IH]; intros srv srv' Hc Hrun; simpl in Hrun.
  - inversion Hrun; subst. exact Hc.
  - destruct (step e srv) as [mid|] eqn:Hstep; [|discriminate].
    exact (IH mid srv' (step_consistent e Hc Hstep) Hrun).
Qed.

Lemma reachable_consistent (srv : Server) : reachable srv -> consistent srv.
Proof. intros [events H]. exact (run_consistent events boot_consistent H). Qed.

(** The teardown of line 39 is dead code: the guard is only released where
    [client] is reset as well, so no call past the guard finds a client. *)
Lemma destroy_never_runs (srv : Server) (c : nat) :
  reachable srv -> ~ In (ClientDestroy c) (trace (sys srv)).
Proof. intros H. exact (none_destroyed (reachable_consistent H) c). Qed.

(** A session that is ready was made by a call that set the guard, and
    nothing has released it since: a call of [initializeWhatsAppClient] on
    a ready session is always ignored. *)
Lemma ready_call_ignored (srv : Server) :
  reachable srv ->
  ready (client (sys srv)) = true ->
  isClientInitializing (sys srv) = true
  /\ initializeWhatsAppClient (sys srv)
     = (emit (Console AlreadyInitializing) (sys srv), Returned).
Proof.
  intros Hreach Hready.
  assert (Hflag : isClientInitializing (sys srv) = true).
  { destruct (isClientInitializing (sys srv)) eqn:E; [reflexivity|].
    destruct (guard_clear (reachable_consistent Hreach) E) as [_ Hnone].
    rewrite Hnone in Hready. discriminate Hready. }
  split; [exact Hflag | exact (initialize_guarded _ Hflag)].
Qed.

(** After a handshake that succeeded the guard stays set. *)
Example guard_stays_set :
  match run [Settles 0 Fulfilled] boot with
  | Some srv => isClientInitializing (sys srv) = true /\ in_flight srv = 0
  | None => False
  end.
Proof. cbn. auto. Qed.

(** C1, where the code departs from it.  Once the first handshake has
    succeeded and the session is ready (the test of line 120 passes), a
    call of [initializeWhatsAppClient] tears nothing down, makes no client
    and starts no handshake: it only logs line 30.  The same holds after
    the session was dropped by [disconnected], where [client] is [null]. *)
Theorem reinitialize_ignored_after_success :
  (exists srv,
      run [Settles 0 Fulfilled; ClientEmits 0 Ready] boot = Some srv
      /\ ready (client (sys srv)) = true
      /\ in_flight srv = 0
      /\ initializeWhatsAppClient (sys srv)
         = (emit (Console AlreadyInitializing) (sys srv), Returned)
      /\ handshakes (trace (fst (initializeWhatsAppClient (sys srv))))
         = handshakes (trace (sys srv)))
  /\ (exists srv,
        run [Settles 0 Fulfilled; ClientEmits 0 Ready;
             ClientEmits 0 Disconnected] boot = Some srv
        /\ client (sys srv) = None
        /\ in_flight srv = 0
        /\ initializeWhatsAppClient (sys srv)
           = (emit (Console AlreadyInitializing) (sys srv), Returned)
        /\ handshakes (trace (fst (initializeWhatsAppClient (sys srv))))
           = handshakes (trace (sys srv))).
Proof.
  split; eexists; (split; [reflexivity|]); cbn; auto.
Qed.

(** C4. On every reachable server at most one call of
    [initializeWhatsAppClient] is past the guard and unfinished, and while
    one is, the guard is set; a call made while the guard is set returns
    at once having started no handshake; a call that reaches an [await]
    found the guard clear and set it before it was suspended; and two
    calls in a row from the start of the process start exactly one
    handshake. *)
Theorem one_initialization_in_flight :
  (forall srv,
      reachable srv ->
      in_flight srv <= 1
      /\ (in_flight srv = 1 -> isClientInitializing (sys srv) = true))
  /\ (forall s,
        isClientInitializing s = true ->
        initializeWhatsAppClient s
        = (emit (Console AlreadyInitializing) s, Returned)
        /\ handshakes (trace (fst (initializeWhatsAppClient s)))
           = handshakes (trace s))
  /\ (forall s s1 point,
        initializeWhatsAppClient s = (s1, Suspended point) ->
        isClientInitializing s = false
        /\ isClientInitializing s1 = true
        /\ snd (initializeWhatsAppClient s1) = Returned
        /\ handshakes (trace (fst (initializeWhatsAppClient s1)))
           = handshakes (trace s1))
  /\ (let '(s1, first) := initializeWhatsAppClient initial in
      let '(s2, second) := initializeWhatsAppClient s1 in
      first = Suspended AwaitInitialize
      /\ second = Returned
      /\ handshakes (trace s2) = 1).
Proof.
  assert (Hguard : forall s,
             isClientInitializing s = true ->
             initializeWhatsAppClient s
             = (emit (Console AlreadyInitializing) s, Returned)
             /\ handshakes (trace (fst (initializeWhatsAppClient s)))
                = handshakes (trace s)).
  { intros s H. rewrite (initialize_guarded s H). split; [reflexivity|].
    cbn. rewrite handshakes_app. cbn. lia. }
  repeat split.
  - apply (one_at_most (reachable_consistent H)).
  - intros Hone. destruct (isClientInitializing (sys srv)) eqn:E; [reflexivity|].
    destruct (guard_clear (reachable_consistent H) E) as [Hzero _]. lia.
  - apply Hguard, H.
  - apply Hguard, H.
  - apply (initialize_suspends _ H).
  - apply (initialize_suspends _ H).
  - destruct (initialize_suspends _ H) as [_ Hset].
    destruct (Hguard s1 Hset) as [E _]. rewrite E. reflexivity.
  - destruct (initialize_suspends _ H) as [_ Hset]. apply Hguard, Hset.
Qed.

Lemma one_initialization_in_flight_witness :
  (in_flight boot <= 1
   /\ (in_flight boot = 1 -> isClientInitializing (sys boot) = true))
  /\ isClientInitializing initial = false
     /\ isClientInitializing (sys boot) = true
     /\ snd (initializeWhatsAppClient (sys boot)) = Returned
     /\ handshakes (trace (fst (initializeWhatsAppClient (sys boot))))
        = handshakes (trace (sys boot)).
Proof.
  split.
  - apply (proj1 one_initialization_in_flight boot).
    exists []. reflexivity.
  - apply (proj1 (proj2 (proj2 one_initialization_in_flight))
             initial (sys boot) AwaitInitialize).
    reflexivity.
Defined.

(** C9. When the awaited handshake (or teardown) throws, the [catch]
    block takes the error: the call returns normally, the guard is
    released, [client] is [null] and only line 75 is logged; no run of
    [initializeWhatsAppClient] ever ends in an exception; the next call
    is not ignored but starts a handshake with a new client; and on a
    reachable server the step in which the promise of a suspended call is
    rejected leaves no call in flight. *)
Theorem initialization_error_recovered :
  (forall point s,
      let '(s', completion) := initialize_resume point Rejected s in
      completion = Returned
      /\ isClientInitializing s' = false
      /\ client s' = None
      /\ qrCodeContent s' = qrCodeContent s
      /\ trace s' = trace s ++ [Console ErrorInitializing]
      /\ snd (initializeWhatsAppClient s') = Suspended AwaitInitialize
      /\ handshakes (trace (fst (initializeWhatsAppClient s')))
         = handshakes (trace s') + 1)
  /\ (forall point o s, snd (initialize_resume point o s) <> Thrown)
  /\ (forall s, snd (initializeWhatsAppClient s) <> Thrown)
  /\ (forall srv i srv',
        reachable srv ->
        step (Settles i Rejected) srv = Some srv' ->
        isClientInitializing (sys srv') = false
        /\ client (sys srv') = None
        /\ in_flight srv' = 0
        /\ nth_error (tasks srv') i = Some Finished).
Proof.
  split; [|split; [|split]].
  - intros point s. destruct point; cbn; repeat split;
      rewrite !handshakes_app; cbn; lia.
  - exact resume_never_throws.
  - exact initialize_never_throws.
  - intros [s pool] i srv' Hreach Hstep.
    pose proof (one_at_most (reachable_consistent Hreach)) as Hone.
    unfold in_flight in *. cbn [step sys tasks] in *.
    destruct (nth_error pool i) as [old|] eqn:Hnth; [|discriminate].
    pose proof (in_flight_update pool i Finished Hnth) as Hu.
    destruct old as [point|point| | ]; try discriminate;
      destruct point; cbn in Hstep; inversion Hstep; subst; clear Hstep;
      cbn in *; rewrite (update_nth _ _ _ Hnth); repeat split; lia.
Qed.

Lemma initialization_error_recovered_witness :
  match step (Settles 0 Rejected) boot with
  | Some srv' =>
      isClientInitializing (sys srv') = false
      /\ client (sys srv') = None
      /\ in_flight srv' = 0
      /\ nth_error (tasks srv') 0 = Some Finished
  | None => False
  end.
Proof.
  cbn [step boot].
  apply (proj2 (proj2 (proj2 initialization_error_recovered)) boot 0).
  - exists []. reflexivity.
  - reflexivity.
Defined.

(** C6 as stated fails: the [auth_failure] handler does not reset
    [client].  On the server as it starts, an authentication failure of
    client 0 leaves client 0 in place. *)
Lemma auth_failure_keeps_client :
  ~ (forall srv c msg srv',
        reachable srv ->
        step (ClientEmits c (AuthFailure msg)) srv = Some srv' ->
        client (sys srv') = None).
Proof.
  intros H.
  assert (Hboot : reachable boot) by (exists []; reflexivity).
  specialize (H boot 0 (js "session rejected") _ Hboot eq_refl).
  cbn in H. discriminate H.
Qed.

(** C6, amended.  The [auth_failure] handler clears the stored linking
    payload, logs the backend's message to the console and emits
    [auth_failure] with the fixed text "Authentication failed. Please
    re-scan the QR code.", whatever the backend's message is; [client] and
    the guard are left as they were. *)
Theorem auth_failure_handled :
  forall msg s,
    qrCodeContent (on_auth_failure msg s) = None
    /\ trace (on_auth_failure msg s)
       = trace s
           ++ [Console (AuthenticationFailed msg);
               IoEmit (js "auth_failure")
                 (Some (js "Authentication failed. Please re-scan the QR code."))]
    /\ client (on_auth_failure msg s) = client s
    /\ isClientInitializing (on_auth_failure msg s) = isClientInitializing s.
Proof.
  intros msg s. cbn. rewrite <- app_assoc. auto.
Qed.

Lemma outstanding_stored (q : option jsstring) (qr : jsstring) :
  outstanding q = Some qr -> q = Some qr /\ qr <> [].
Proof.
  destruct q as [[|c q]|]; simpl; intros H; inversion H; subst.
  split; [reflexivity|discriminate].
Qed.

(** C5 as stated fails: with no payload stored and the guard clear the
    handler does not reply when the request arrives.  After the first
    handshake was rejected, a request starts a new handshake and is left
    waiting for it, with no reply sent. *)
Lemma link_device_waits_for_handshake :
  ~ (forall srv srv',
        reachable srv ->
        outstanding (qrCodeContent (sys srv)) = None ->
        step GetLinkDevice srv = Some srv' ->
        replies (List.length (tasks srv)) (trace (sys srv'))
        = [link_initiated]).
Proof.
  intros H.
  assert (Hr : exists srv, run [Settles 0 Rejected] boot = Some srv)
    by (eexists; reflexivity).
  destruct Hr as [srv Hr].
  assert (Hreach : reachable srv) by (exists [Settles 0 Rejected]; exact Hr).
  cbn in Hr. inversion Hr; subst; clear Hr.
  specialize (H _ _ Hreach eq_refl eq_refl).
  cbn in H. discriminate H.
Qed.

(** C5, amended.  With a non-empty payload stored, the handler re-emits
    it as [qr] and replies 200 at once, calling nothing else.  With none
    stored it calls [initializeWhatsAppClient] and replies 200 when that
    call has returned: at once if the guard is set, the call being
    ignored; and if the guard is clear, the handler is suspended with the
    call and has sent no reply, and the reply is sent in the step in
    which the handshake resolves or is rejected. *)
Theorem link_device_replies :
  status link_resent = 200 /\ status link_initiated = 200
  /\ (forall request s qr,
        outstanding (qrCodeContent s) = Some qr ->
        qrCodeContent s = Some qr
        /\ link_device request s
           = (emit (Respond request link_resent)
                (emit (IoEmit (js "qr") (Some qr)) s), Returned)
        /\ handshakes (trace (fst (link_device request s)))
           = handshakes (trace s))
  /\ (forall request s,
        outstanding (qrCodeContent s) = None ->
        isClientInitializing s = true ->
        link_device request s
        = (emit (Respond request link_initiated)
             (emit (Console AlreadyInitializing)
                (emit (Console InitializingForQr) s)), Returned))
  /\ (forall request s,
        outstanding (qrCodeContent s) = None ->
        isClientInitializing s = false ->
        exists s' point,
          link_device request s = (s', Suspended point)
          /\ isClientInitializing s' = true
          /\ replies request (trace s') = replies request (trace s))
  /\ (forall request o s,
        exists s',
          link_device_resume request AwaitInitialize o s = (s', Returned)
          /\ replies request (trace s')
             = replies request (trace s) ++ [link_initiated]).
Proof.
  split; [reflexivity|]. split; [reflexivity|].
  split; [|split; [|split]].
  - intros request s qr H. unfold link_device. rewrite H.
    destruct (outstanding_stored _ H) as [Hq _]. repeat split; [exact Hq|].
    cbn. rewrite !handshakes_app. cbn. lia.
  - intros request s H Hflag. unfold link_device. rewrite H.
    rewrite initialize_guarded by exact Hflag. reflexivity.
  - intros request s H Hflag. unfold link_device. rewrite H.
    unfold initializeWhatsAppClient, try_block. cbn. rewrite Hflag.
    destruct (client s); cbn; do 2 eexists;
      (split; [reflexivity|]); cbn; rewrite !replies_app; cbn;
      rewrite ?app_nil_r; auto.
  - intros request o s. destruct o; cbn; eexists;
      (split; [reflexivity|]); cbn; rewrite !replies_app; cbn;
      rewrite Nat.eqb_refl, ?app_nil_r; reflexivity.
Qed.

Lemma link_device_replies_witness :
  (qrCodeContent (on_qr (js "2@token") (sys boot)) = Some (js "2@token")
   /\ link_device 1 (on_qr (js "2@token") (sys boot))
      = (emit (Respond 1 link_resent)
           (emit (IoEmit (js "qr") (Some (js "2@token")))
              (on_qr (js "2@token") (sys boot))), Returned)
   /\ handshakes (trace (fst (link_device 1 (on_qr (js "2@token") (sys boot)))))
      = handshakes (trace (on_qr (js "2@token") (sys boot))))
  /\ link_device 1 (sys boot)
     = (emit (Respond 1 link_initiated)
          (emit (Console AlreadyInitializing)
             (emit (Console InitializingForQr) (sys boot))), Returned)
  /\ exists s' point,
       link_device 1 initial = (s', Suspended point)
       /\ isClientInitializing s' = true
       /\ replies 1 (trace s') = replies 1 (trace initial).
Proof.
  pose proof link_device_replies as (_ & _ & Hresend & Hguarded & Hwaits & _).
  split; [|split].
  - apply (Hresend 1 (on_qr (js "2@token") (sys boot)) (js "2@token")).
    reflexivity.
  - apply (Hguarded 1 (sys boot)); reflexivity.
  - apply (Hwaits 1 initial); reflexivity.
Defined.


(** * Further properties *)

(** ** Extraction *)

Lemma digit_not_space (c : N) : isDigit c = true -> isWhiteSpace c = false.
Proof.
  unfold isDigit, isWhiteSpace. intros H.
  apply andb_true_iff in H. destruct H as [Hlo Hhi].
  apply N.leb_le in Hlo. apply N.leb_le in Hhi.
  repeat rewrite orb_false_iff. repeat split;
    try (apply N.eqb_neq; lia).
  - apply andb_false_iff. right. apply N.leb_gt. lia.
  - apply andb_false_iff. left. apply N.leb_gt. lia.
Qed.

Lemma trimStart_digits (s : jsstring) :
  forallb isDigit s = true -> trimStart s = s.
Proof.
  destruct s as [|c s]; [reflexivity|]. simpl. intros H.
  apply andb_true_iff in H. destruct H as [Hc _].
  now rewrite (digit_not_space c Hc).
Qed.

Lemma forallb_rev (f : N -> bool) (s : jsstring) :
  forallb f s = true -> forallb f (rev s) = true.
Proof.
  rewrite !forallb_forall. intros H x Hx. apply H. now apply in_rev.
Qed.

Lemma trim_digits (s : jsstring) : forallb isDigit s = true -> trim s = s.
Proof.
  intros H. unfold trim, trimEnd.
  rewrite (trimStart_digits s H).
  rewrite (trimStart_digits (rev s) (forallb_rev isDigit s H)).
  apply rev_involutive.
Qed.

Lemma test_numeric_digits (s : jsstring) :
  test_numeric s = true -> forallb isDigit s = true /\ s <> [].
Proof.
  destruct s as [|c s]; [discriminate|]. intros H. split; [exact H|discriminate].
Qed.

Lemma filter_numeric_length (column : list Cell) :
  forall kept,
    filter_numeric column = Some kept ->
    List.length kept <= List.length column.
Proof.
  induction column as [|cell rest IH]; simpl; intros kept H.
  - inversion H. simpl. lia.
  - destruct cell as [ |n|s|b| ]; try discriminate.
    destruct (filter_numeric rest) as [kept'|]; [|discriminate].
    specialize (IH kept' eq_refl).
    destruct (test_numeric (trim s)); inversion H; subst; simpl; lia.
Qed.

(** X1. Every recipient that [parseExcelFile] returns is a non-empty run
    of digits that [trim] leaves as it is, so it has no white space at
    either end; and there are at most as many recipients as rows below
    the header. *)
Theorem recipients_are_trimmed :
  forall data recipients,
    parseExcelFile data = Some recipients ->
    Forall (fun r => forallb isDigit r = true /\ r <> [] /\ trim r = r)
      recipients
    /\ List.length recipients <= List.length data - 1.
Proof.
  intros data recipients H. unfold parseExcelFile in H.
  destruct (filter_numeric _) as [kept|] eqn:E; [|discriminate].
  inversion H; subst; clear H. split.
  - apply filter_numeric_kept in E. rewrite Forall_map.
    eapply Forall_impl; [|exact E]. cbv beta. intros s Hs.
    destruct (test_numeric_digits _ Hs) as [Hd Hne].
    repeat split; [exact Hd | exact Hne | exact (trim_digits _ Hd)].
  - apply filter_numeric_length in E.
    rewrite length_map in *.
    pose proof (filter_length_le is_defined (map first_column (skipn 1 data))).
    rewrite length_map, length_skipn in *. lia.
Qed.

Lemma recipients_are_trimmed_witness :
  Forall (fun r => forallb isDigit r = true /\ r <> [] /\ trim r = r)
    [js "919999999999"; js "888"]
  /\ List.length [js "919999999999"; js "888"] <= List.length example_sheet - 1.
Proof.
  apply (recipients_are_trimmed example_sheet). reflexivity.
Defined.

Lemma filter_numeric_throws (column : list Cell) :
  filter_numeric column = None
  <-> exists cell, In cell column /\ is_string cell = false.
Proof.
  induction column as [|cell rest IH]; simpl.
  - split; [discriminate|]. intros (c & [] & _).
  - destruct cell as [ |n|s|b| ];
      try (split; [intros _; eexists; split; [left; reflexivity|reflexivity]
                  | reflexivity]).
    destruct (filter_numeric rest) as [kept|].
    + split; [discriminate|]. intros (c & [Hc|Hc] & Hs).
      * subst c. discriminate Hs.
      * destruct IH as [_ IH]. discriminate IH. eauto.
    + split; [|reflexivity]. intros _.
      destruct IH as [IH _]. destruct (IH eq_refl) as (c & Hc & Hs). eauto.
Qed.

Lemma rows_throw_iff :
  forall data,
    parseExcelFile data = None
    <-> exists row,
          In row (skipn 1 data) /\ no_trim (first_column row) = true.
Proof.
  intros data. unfold parseExcelFile.
  set (column := map stringify _).
  assert (H : filter_numeric column = None
              <-> exists row,
                    In row (skipn 1 data)
                    /\ no_trim (first_column row) = true).
  { rewrite filter_numeric_throws. subst column. split.
    - intros (cell & Hin & Hs). apply in_map_iff in Hin.
      destruct Hin as (raw & Hraw & Hin). apply filter_In in Hin.
      destruct Hin as [Hin Hdef]. apply in_map_iff in Hin.
      destruct Hin as (row & Hrow & Hin). subst raw cell.
      exists row. split; [exact Hin|].
      destruct (first_column row) as [ |n|t|b| ]; try discriminate;
        reflexivity.
    - intros (row & Hin & Hb). exists (first_column row).
      assert (Hs : stringify (first_column row) = first_column row
                   /\ is_string (first_column row) = false
                   /\ is_defined (first_column row) = true)
        by (destruct (first_column row); try discriminate; auto).
      destruct Hs as (Hsame & Hnot & Hdef). split; [|exact Hnot].
      apply in_map_iff. exists (first_column row). split; [exact Hsame|].
      apply filter_In. split; [|exact Hdef].
      apply in_map_iff. exists row. auto. }
  destruct (filter_numeric column); [|tauto].
  split; [discriminate|]. intros Hex. apply H in Hex. discriminate Hex.
Qed.

(** X2. [parseExcelFile] throws exactly when [xlsx.read] throws on the
    buffer, or some row below the header has a boolean or [null] in its
    first column, on which line 98 finds no [trim]; the header row, the
    other columns and empty, numeric or text cells never make it throw. *)
Theorem parseExcelFile_throws_iff :
  forall upload,
    parseExcelBuffer upload = None
    <-> upload = Unreadable
        \/ exists data row,
             upload = Workbook data
             /\ In row (skipn 1 data)
             /\ no_trim (first_column row) = true.
Proof.
  intros [|data]; cbn [parseExcelBuffer].
  - split; auto.
  - rewrite rows_throw_iff. split.
    + intros (row & Hin & Hno). right. exists data, row. auto.
    + intros [H|(data' & row & Heq & Hin & Hno)]; [discriminate H|].
      inversion Heq; subst data'. eauto.
Qed.

Lemma filter_numeric_app (a b : list Cell) :
  filter_numeric (a ++ b)
  = both (filter_numeric a) (filter_numeric b).
Proof.
  induction a as [|cell a IH]; simpl.
  - destruct (filter_numeric b); reflexivity.
  - destruct cell as [ |n|s|c| ]; try reflexivity.
    rewrite IH. destruct (filter_numeric a), (filter_numeric b); simpl;
      try reflexivity.
    destruct (test_numeric (trim s)); reflexivity.
Qed.

Lemma parse_rows_app (h h1 h2 : Row) (above below : list Row) :
  parseExcelFile (h :: above ++ below)
  = both (parseExcelFile (h1 :: above)) (parseExcelFile (h2 :: below)).
Proof.
  unfold parseExcelFile. cbn [skipn].
  rewrite !map_app, filter_app, map_app, filter_numeric_app.
  destruct (filter_numeric _), (filter_numeric _); simpl; try reflexivity.
  now rewrite map_app.
Qed.

(** X3. Rows are extracted one by one and in order: the recipients of a
    sheet are those of its upper rows followed by those of its lower rows,
    whatever the header rows are, and the extraction throws when either
    part does. *)
Theorem parseExcelFile_rows_append :
  forall (h h1 h2 : Row) (above below : list Row),
    parseExcelFile (h :: above ++ below)
    = both (parseExcelFile (h1 :: above)) (parseExcelFile (h2 :: below)).
Proof.
  intros h h1 h2 above below. unfold parseExcelFile. cbn [skipn].
  rewrite !map_app, filter_app, map_app, filter_numeric_app.
  destruct (filter_numeric _), (filter_numeric _); simpl; try reflexivity.
  now rewrite map_app.
Qed.

Lemma uint_digits (d : Decimal.uint) :
  forallb isDigit (js (NilEmpty.string_of_uint d)) = true.
Proof.
  induction d; simpl; [reflexivity|..]; exact IHd.
Qed.

Lemma nilzero_digits (d : Decimal.uint) :
  test_numeric (js (NilZero.string_of_uint d)) = true.
Proof.
  destruct d; try reflexivity; simpl; apply (uint_digits d).
Qed.

Lemma integer_text_digits (z : Z) :
  (0 <=? z)%Z = true -> forallb isDigit (Number_toString (Int z)) = true.
Proof.
  destruct z as [ |p|p]; [reflexivity| |discriminate]. intros _.
  cbn [Number_toString Z.to_int NilZero.string_of_int].
  exact (proj1 (test_numeric_digits _ (nilzero_digits (Pos.to_uint p)))).
Qed.

Lemma integer_cell_numeric (z : Z) :
  test_numeric (trim (Number_toString (Int z))) = (0 <=? z)%Z.
Proof.
  destruct z as [ |p|p]; [reflexivity| |].
  - cbn [Number_toString Z.to_int NilZero.string_of_int].
    pose proof (nilzero_digits (Pos.to_uint p)) as H.
    destruct (test_numeric_digits _ H) as [Hd _].
    rewrite (trim_digits _ Hd). exact H.
  - cbn [Number_toString Z.to_int NilZero.string_of_int].
    pose proof (nilzero_digits (Pos.to_uint p)) as H.
    destruct (test_numeric_digits _ H) as [Hd Hne].
    set (digits := js (NilZero.string_of_uint (Pos.to_uint p))) in *.
    change (js (String "-" (NilZero.string_of_uint (Pos.to_uint p))))
      with (45%N :: digits).
    unfold trim, trimEnd. cbn [trimStart].
    change (isWhiteSpace 45) with false. cbn iota.
    cbn [rev].
    assert (Hrev : trimStart (rev digits ++ [45%N]) = rev digits ++ [45%N]).
    { pose proof (forallb_rev isDigit digits Hd) as Hr.
      destruct (rev digits) as [|c r] eqn:E.
      - apply (f_equal (@rev N)) in E. rewrite rev_involutive in E.
        simpl in E. contradiction.
      - simpl in *. apply andb_true_iff in Hr. destruct Hr as [Hc _].
        now rewrite (digit_not_space c Hc). }
    rewrite Hrev, rev_app_distr, rev_involutive. reflexivity.
Qed.

(** X4. A row whose first cell is an integer (of magnitude at most 2^53,
    which JavaScript prints in full) is kept exactly when the integer is
    not negative, and the recipient is then its decimal text: a negative
    number prints with a sign and fails the test. *)
Theorem integer_rows :
  forall (h : Row) (above below : list Row) (rest : Row) (z : Z),
    (Z.abs z <= 2 ^ 53)%Z ->
    parseExcelFile (h :: above ++ (CNumber (Int z) :: rest) :: below)
    = both (parseExcelFile (h :: above))
        (both (Some (if (0 <=? z)%Z then [Number_toString (Int z)] else []))
           (parseExcelFile (h :: below))).
Proof.
  intros h above below rest z _.
  rewrite (parse_rows_app h h h above).
  f_equal.
  etransitivity;
    [exact (parse_rows_app h h h [CNumber (Int z) :: rest] below)|].
  f_equal.
  unfold parseExcelFile. cbn [skipn map first_column nth filter is_defined
                                stringify filter_numeric].
  rewrite integer_cell_numeric.
  destruct (0 <=? z)%Z eqn:E; [|reflexivity].
  cbn [map]. now rewrite (trim_digits _ (integer_text_digits z E)).
Qed.

Lemma integer_rows_witness :
  parseExcelFile
    ([CString (js "MobileNumber")]
       :: [[CString (js "abc")]] ++ [CNumber (Int (-42)); CString (js "x")]
       :: [[CNumber (Int 919999999999)]])
  = both (parseExcelFile [[CString (js "MobileNumber")]; [CString (js "abc")]])
      (both (Some (if (0 <=? -42)%Z then [Number_toString (Int (-42))] else []))
         (parseExcelFile
            [[CString (js "MobileNumber")]; [CNumber (Int 919999999999)]])).
Proof.
  apply (@integer_rows [CString (js "MobileNumber")] [[CString (js "abc")]]
           [[CNumber (Int 919999999999)]] [CString (js "x")] (-42)%Z).
  cbn. discriminate.
Defined.

(** ** The send loop, whatever the attempts meet *)

Lemma delays_app (a b : list SendEffect) :
  delays (a ++ b) = delays a ++ delays b.
Proof.
  induction a as [|e a IH]; simpl; [reflexivity|].
  destruct e; simpl; rewrite ?IH; reflexivity.
Qed.

Lemma leading_resolves_le (env : nat -> Attempt) (n : nat) :
  forall index, leading_resolves env index n <= n.
Proof.
  induction n as [|n IH]; intros index; simpl; [lia|].
  destruct (env index); try lia. specialize (IH (index + 1)). lia.
Qed.

Lemma leading_resolves_all (env : nat -> Attempt) (n : nat) :
  forall index,
    leading_resolves env index n = n
    <-> forall i, index <= i < index + n -> env i = Resolves.
Proof.
  induction n as [|n IH]; intros index; simpl.
  - split; [intros _ i Hi; lia | reflexivity].
  - destruct (env index) eqn:E.
    + split; [discriminate|]. intros H. rewrite (H index) in E by lia.
      discriminate E.
    + rewrite Nat.succ_inj_wd, IH. split.
      * intros H i Hi. destruct (Nat.eq_dec i index) as [->|Hne];
          [exact E | apply H; lia].
      * intros H i Hi. apply H. lia.
    + split; [discriminate|]. intros H. rewrite (H index) in E by lia.
      discriminate E.
Qed.

Lemma send_loop_general (env : nat -> Attempt) (message : jsstring)
    (numbers : list jsstring) :
  forall index total,
    total = index + List.length numbers ->
    let j := leading_resolves env index (List.length numbers) in
    let '(effects, completed) := send_loop env message total index numbers in
    completed = Nat.eqb j (List.length numbers)
    /\ sentCount effects = j
    /\ delays effects = repeat 15000%Z (Nat.min j (List.length numbers - 1))
    /\ sends effects
       = map (fun number => (chat_id number, message))
           (firstn (j + handed_over (env (index + j))) numbers).
Proof.
  induction numbers as [|number rest IH]; intros index total Htotal.
  - cbn. rewrite firstn_nil. auto.
  - cbn [send_loop leading_resolves List.length].
    specialize (IH (index + 1) total). cbn zeta in IH.
    destruct (env index) eqn:E.
    + cbn. rewrite Nat.add_0_r, E. cbn. auto.
    + simpl in Htotal.
      destruct (send_loop env message total (index + 1) rest)
        as [later completed].
      destruct IH as (Hdone & Hcount & Hdelays & Hsends); [lia|].
      set (j := leading_resolves env (index + 1) (List.length rest)) in *.
      cbn [sentCount delays sends].
      rewrite sentCount_app, delays_app, sends_app, Hcount, Hdelays, Hsends.
      replace (index + S j) with (index + 1 + j) by lia.
      repeat split.
      * exact Hdone.
      * destruct (index <? total - 1); reflexivity.
      * pose proof (leading_resolves_le env (List.length rest) (index + 1))
          as Hle.
        fold j in Hle. clearbody j.
        destruct rest as [|number' rest']; cbn [List.length] in *.
        -- replace (index <? total - 1) with false
             by (symmetry; apply Nat.ltb_ge; lia).
           replace j with 0 by lia. reflexivity.
        -- replace (index <? total - 1) with true
             by (symmetry; apply Nat.ltb_lt; lia).
           replace (Nat.min (S j) (S (S (List.length rest')) - 1))
             with (S (Nat.min j (S (List.length rest') - 1))) by lia.
           reflexivity.
      * destruct (index <? total - 1); reflexivity.
    + cbn. rewrite Nat.add_0_r, E. cbn. auto.
Qed.

(** ** POST /send-messages, whatever the attempts meet *)

Section AnyRun.

Variable client : option Client.
Variable env : nat -> Attempt.
Variable req : SendRequest.
Variable data : list Row.
Variable message : jsstring.
Variable recipients : list jsstring.

Hypothesis file_present : req_file req = Some data.
Hypothesis message_present : req_message req = Some message.
Hypothesis message_not_empty : message <> [].
Hypothesis extracted : parseExcelFile data = Some recipients.

Lemma handler_status :
  1 <= List.length recipients ->
  ready client = true ->
  status (snd (send_messages client env req))
  = if Nat.eqb (leading_resolves env 0 (List.length recipients))
         (List.length recipients)
    then 200 else 500.
Proof.
  intros HN Hready.
  rewrite (@send_messages_loop client env req data message recipients
             file_present message_present message_not_empty extracted
             HN Hready).
  pose proof (@send_loop_general env message recipients 0 _ eq_refl) as H.
  cbn zeta in *. cbn [Nat.add] in H.
  destruct (send_loop env message (List.length recipients) 0 recipients)
    as [effects completed].
  destruct H as (Hdone & _). rewrite <- Hdone.
  destruct completed; reflexivity.
Qed.

(** X5. A run stops at the first attempt that does not resolve, of
    whatever kind.  With j the number of attempts that resolve in a row
    from the first recipient on: j sends completed; the pauses taken are j
    of 15000 ms, or N-1 when all N sends completed; the messages handed to
    the session are those of the first j recipients, and of recipient j+1
    too when its promise was rejected, but not when [client] was found
    reset; and the reply is 200 when j = N and 500 otherwise. *)
Theorem run_stops_at_first_failure :
  1 <= List.length recipients ->
  ready client = true ->
  let j := leading_resolves env 0 (List.length recipients) in
  let '(effects, reply) := send_messages client env req in
  sentCount effects = j
  /\ delays effects
     = repeat 15000%Z (Nat.min j (List.length recipients - 1))
  /\ sends effects
     = map (fun number => (chat_id number, message))
         (firstn (j + handed_over (env j)) recipients)
  /\ status reply = if Nat.eqb j (List.length recipients) then 200 else 500.
Proof.
  intros HN Hready.
  rewrite (@send_messages_loop client env req data message recipients
             file_present message_present message_not_empty extracted
             HN Hready).
  pose proof (@send_loop_general env message recipients 0 _ eq_refl) as H.
  cbn zeta in *. cbn [Nat.add] in H.
  destruct (send_loop env message (List.length recipients) 0 recipients)
    as [effects completed].
  destruct H as (Hdone & Hcount & Hdelays & Hsends).
  rewrite <- Hdone.
  destruct completed; cbn [sentCount delays sends status];
    rewrite ?sentCount_app, ?delays_app, ?sends_app; cbn [sentCount delays sends];
    rewrite ?app_nil_r, ?Nat.add_0_r; auto.
Qed.

End AnyRun.

Lemma run_stops_at_first_failure_witness :
  let j := leading_resolves client_lost 0 2 in
  let '(effects, reply) :=
    send_messages ready_client client_lost example_request in
  sentCount effects = j
  /\ delays effects = repeat 15000%Z (Nat.min j (2 - 1))
  /\ sends effects
     = map (fun number => (chat_id number, js "hello"))
         (firstn (j + handed_over (client_lost j))
            [js "919999999999"; js "888"])
  /\ status reply = if Nat.eqb j 2 then 200 else 500.
Proof.
  apply (@run_stops_at_first_failure ready_client client_lost example_request
           example_sheet (js "hello") [js "919999999999"; js "888"]);
    try reflexivity; [discriminate | simpl; lia].
Defined.

Lemma message_missing_text (m : option jsstring) :
  message_missing m = false -> exists text, m = Some text /\ text <> [].
Proof.
  destruct m as [[|c text]|]; try discriminate.
  intros _. eexists. split; [reflexivity|discriminate].
Qed.

(** X6. The reply is 200 exactly when the message is present, at least
    one recipient was extracted, the session passes the test of line 120
    and every attempt resolves; any other request gets another status. *)
Theorem reply_200_iff :
  forall client env req,
    status (snd (send_messages client env req)) = 200
    <-> message_missing (req_message req) = false
        /\ recipients_of req <> []
        /\ ready client = true
        /\ forall i, i < List.length (recipients_of req) -> env i = Resolves.
Proof.
  intros client env req. unfold recipients_of.
  destruct (req_file req) as [data|] eqn:Hfile.
  2:{ unfold send_messages. rewrite Hfile. cbn. split; [discriminate|].
      intros (_ & H & _). contradiction. }
  destruct (message_missing (req_message req)) eqn:Hmsg.
  { unfold send_messages. rewrite Hfile, Hmsg. cbn. split; [discriminate|].
    intros (H & _). discriminate H. }
  destruct (parseExcelFile data) as [recipients|] eqn:Hparse.
  2:{ unfold send_messages. rewrite Hfile, Hmsg, Hparse. cbn.
      split; [discriminate|]. intros (_ & H & _). contradiction. }
  destruct recipients as [|number rest] eqn:Hrec.
  { unfold send_messages. rewrite Hfile, Hmsg, Hparse. cbn.
    split; [discriminate|]. intros (_ & H & _). contradiction. }
  rewrite <- Hrec in *.
  destruct (ready client) eqn:Hready.
  2:{ unfold send_messages. rewrite Hfile, Hmsg, Hparse, Hrec, Hready. cbn.
      split; [discriminate|]. intros (_ & _ & H & _). discriminate H. }
  destruct (message_missing_text _ Hmsg) as (text & Htext & Hne).
  assert (HN : 1 <= List.length recipients) by (subst recipients; simpl; lia).
  rewrite (@handler_status client env req data text recipients Hfile Htext
             Hne Hparse HN Hready).
  pose proof (leading_resolves_all env (List.length recipients) 0) as Hall.
  cbn [Nat.add] in Hall.
  destruct (Nat.eqb_spec (leading_resolves env 0 (List.length recipients))
              (List.length recipients)) as [Heq|Hneq].
  - split; [|reflexivity]. intros _. repeat split.
    + subst recipients. discriminate.
    + intros i Hi. apply Hall; [exact Heq | lia].
  - split; [discriminate|]. intros (_ & _ & _ & Hres). exfalso. apply Hneq.
    apply Hall. intros i Hi. apply Hres. lia.
Qed.

Lemma reply_200_iff_witness :
  status (snd (send_messages ready_client all_resolve example_request)) = 200.
Proof.
  apply (proj2 (reply_200_iff ready_client all_resolve example_request)).
  repeat split; try reflexivity. discriminate.
Defined.

Lemma parseExcelFile_throws_iff_witness :
  parseExcelBuffer
    (Workbook [[CString (js "MobileNumber")]; [CNumber (Int 888)]; [CNull]])
  = None.
Proof.
  apply (proj2 (parseExcelFile_throws_iff
                  (Workbook [[CString (js "MobileNumber")];
                             [CNumber (Int 888)]; [CNull]]))).
  right. exists [[CString (js "MobileNumber")]; [CNumber (Int 888)]; [CNull]],
           [CNull].
  repeat split. right. left. reflexivity.
Defined.

Lemma parsed_request_400 :
  forall client env req,
    (status (snd (send_messages client env req)) = 400
     <-> req_file req = None
         \/ message_missing (req_message req) = true
         \/ exists data,
              req_file req = Some data /\ parseExcelFile data = Some [])
    /\ (status (snd (send_messages client env req)) = 400 ->
        fst (send_messages client env req) = []).
Proof.
  intros client env req. unfold send_messages.
  destruct (req_file req) as [data|] eqn:Hfile;
    [|cbn; split; [split|]; auto].
  destruct (message_missing (req_message req)) eqn:Hmsg;
    [cbn; split; [split|]; auto|].
  destruct (parseExcelFile data) as [recipients|] eqn:Hparse.
  2:{ cbn. split; [split|]; try discriminate.
      intros [H|[H|(d & Hd & H)]]; try discriminate.
      inversion Hd; subst. congruence. }
  destruct recipients as [|number rest].
  { cbn. split; [split|]; auto. intros _. right. right. eauto. }
  cbn [List.length Nat.eqb].
  assert (Hnot : ~ (Some data = None \/ false = true
                    \/ exists d, Some data = Some d /\ parseExcelFile d = Some [])).
  { intros [H|[H|(d & Hd & H)]]; try discriminate.
    inversion Hd; subst. congruence. }
  destruct (negb (ready client)); [cbn; split; [split|]; try discriminate;
                                   intros H; destruct (Hnot H)|].
  destruct (send_loop _ _ _ _ _) as [effects completed].
  destruct completed; cbn; (split; [split|]; try discriminate);
    intros H; destruct (Hnot H).
Qed.

(** X7. Of the requests that reach the handler, those answered 400 are
    exactly the ones with a body in which no file was uploaded, the
    message is missing or empty, or the extraction returns no recipient:
    neither the session nor the attempts have a say in it, and such a
    request sends nothing and takes no pause.  A request without a body
    gets no reply at all, line 107 throwing outside the [try] block. *)
Theorem reply_400_iff :
  forall client env input,
    (option_map status (snd (post_send_messages client env input)) = Some 400
     <-> exists req,
           input = Multipart req
           /\ (req_file req = None
               \/ message_missing (req_message req) = true
               \/ exists data,
                    req_file req = Some data
                    /\ parseExcelFile data = Some []))
    /\ (option_map status (snd (post_send_messages client env input))
        = Some 400 ->
        sends (fst (post_send_messages client env input)) = []
        /\ delays (fst (post_send_messages client env input)) = [])
    /\ (input = NoBody ->
        post_send_messages client env input = ([], None)).
Proof.
  intros client env [|req]; cbn [post_send_messages].
  - cbn. repeat split; try discriminate.
    intros (req & H & _). discriminate H.
  - destruct (parsed_request_400 client env req) as [Hiff Hnone].
    destruct (send_messages client env req) as [effects reply].
    cbn [fst snd option_map] in *. repeat split.
    + intros H. exists req. split; [reflexivity|].
      apply Hiff. congruence.
    + intros (req' & Hreq & H). inversion Hreq; subst req'.
      f_equal. apply Hiff. exact H.
    + rewrite Hnone by congruence. reflexivity.
    + rewrite Hnone by congruence. reflexivity.
    + discriminate.
Qed.

Lemma reply_400_iff_witness :
  option_map status
    (snd (post_send_messages ready_client all_resolve
            (Multipart {| req_file := Some example_sheet;
                          req_message := Some [] |}))) = Some 400.
Proof.
  apply (proj2 (proj1 (reply_400_iff ready_client all_resolve
                         (Multipart {| req_file := Some example_sheet;
                                       req_message := Some [] |})))).
  eexists. split; [reflexivity|]. right. left. reflexivity.
Defined.

(** X8. While the session does not pass the test of line 120, a request
    hands no message to the session and takes no pause, and its reply is
    never 200. *)
Theorem nothing_sent_unless_ready :
  forall client env req,
    ready client = false ->
    sends (fst (send_messages client env req)) = []
    /\ delays (fst (send_messages client env req)) = []
    /\ status (snd (send_messages client env req)) <> 200.
Proof.
  intros client env req Hready. unfold send_messages. rewrite Hready.
  destruct (req_file req) as [data|]; [|cbn; repeat split; discriminate].
  destruct (message_missing (req_message req));
    [cbn; repeat split; discriminate|].
  destruct (parseExcelFile data) as [recipients|];
    [|cbn; repeat split; discriminate].
  destruct (Nat.eqb (List.length recipients) 0);
    cbn; repeat split; discriminate.
Qed.

Lemma nothing_sent_unless_ready_witness :
  sends (fst (send_messages None all_resolve example_request)) = []
  /\ delays (fst (send_messages None all_resolve example_request)) = []
  /\ status (snd (send_messages None all_resolve example_request)) <> 200.
Proof.
  apply (nothing_sent_unless_ready None all_resolve example_request).
  reflexivity.
Defined.

(** X9. A boolean in the first column of a row below the header fails the
    whole request: with a file and a message present the reply is the 500
    of line 150, only line 149 is logged and nothing is sent, even when
    every other row holds a number and whatever the session is. *)
Theorem boolean_cell_fails_request :
  forall client env req data text row b,
    req_file req = Some data ->
    req_message req = Some text ->
    text <> [] ->
    In row (skipn 1 data) ->
    first_column row = CBoolean b ->
    send_messages client env req
    = ([LogError],
       {| status := 500; body := ErrorBody (js "Failed to send messages.") |}).
Proof.
  intros client env req data text row b Hfile Htext Hne Hin Hb.
  assert (Hthrows : parseExcelFile data = None).
  { unfold parseExcelFile.
    destruct (filter_numeric _) as [kept|] eqn:E; [|reflexivity].
    assert (Hnone : filter_numeric
                      (map stringify
                         (filter is_defined (map first_column (skipn 1 data))))
                    = None).
    { apply filter_numeric_throws. exists (CBoolean b). split; [|reflexivity].
      apply in_map_iff. exists (CBoolean b). split; [reflexivity|].
      apply filter_In. split; [|reflexivity].
      apply in_map_iff. exists row. auto. }
    rewrite Hnone in E. discriminate E. }
  unfold send_messages. rewrite Hfile, Htext, Hthrows.
  destruct text; [contradiction|reflexivity].
Qed.

Lemma boolean_cell_fails_request_witness :
  send_messages ready_client all_resolve
    {| req_file := Some [[CString (js "MobileNumber")];
                         [CNumber (Int 919999999999)];
                         [CBoolean true]];
       req_message := Some (js "hello") |}
  = ([LogError],
     {| status := 500; body := ErrorBody (js "Failed to send messages.") |}).
Proof.
  apply (@boolean_cell_fails_request ready_client all_resolve _
           [[CString (js "MobileNumber")]; [CNumber (Int 919999999999)];
            [CBoolean true]]
           (js "hello") [CBoolean true] true);
    try reflexivity; [discriminate | right; left; reflexivity].
Defined.

(** ** What the session variables keep *)

Ltac in_trace :=
  repeat match goal with
         | H : In _ (_ ++ _) |- _ => apply in_app_or in H; destruct H as [H|H]
         | H : In _ (_ :: _) |- _ => destruct H as [H|H]
         | H : In _ [] |- _ => destruct H
         | H : IoEmit _ _ = IoEmit _ _ |- _ => inversion H; subst; clear H
         | H : _ = IoEmit _ _ |- _ => discriminate H
         end.

Lemma coherent_quiet (e : Effect) (s : Sys) :
  quiet e = true -> coherent s -> coherent (emit e s).
Proof.
  intros Hq [H1 H2 H4 H5]. split; cbn.
  - rewrite handshakes_app, H1. destruct e; try discriminate; cbn; lia.
  - exact H2.
  - intros q H. apply in_or_app. left. auto.
  - intros event payload H. in_trace; [auto|].
    destruct e; discriminate.
Qed.

Lemma coherent_set_initializing (b : bool) (s : Sys) :
  coherent s -> coherent (set_initializing b s).
Proof. intros [H1 H2 H4 H5]. split; cbn; assumption. Qed.

Lemma coherent_set_qr_none (s : Sys) : coherent s -> coherent (set_qr None s).
Proof.
  intros [H1 H2 H4 H5]. split; cbn; try assumption. discriminate.
Qed.

Lemma coherent_set_client_none (s : Sys) :
  coherent s -> coherent (set_client None s).
Proof.
  intros [H1 H2 H4 H5]. split; cbn; try assumption; discriminate.
Qed.

Lemma coherent_construct (s : Sys) :
  coherent s -> coherent (fst (construct_and_initialize s)).
Proof.
  intros [H1 H2 H4 H5]. split; cbn.
  - rewrite !handshakes_app, H1. cbn. lia.
  - intros c H. inversion H; subst. reflexivity.
  - intros q H. rewrite !in_app_iff. auto.
  - intros event payload H. in_trace. auto.
Qed.

Lemma coherent_catch (r : Sys * Completion) :
  coherent (fst r) -> coherent (fst (catch_block r)).
Proof.
  destruct r as [s []]; cbn; try exact id. intros H.
  apply coherent_set_client_none, coherent_set_initializing, coherent_quiet;
    [reflexivity | exact H].
Qed.

Lemma coherent_initialize (s : Sys) :
  coherent s -> coherent (fst (initializeWhatsAppClient s)).
Proof.
  intros H. unfold initializeWhatsAppClient.
  destruct (isClientInitializing s).
  - cbn. apply coherent_quiet; [reflexivity | exact H].
  - apply coherent_catch. unfold try_block. cbn [client set_initializing].
    destruct (client s) as [c|].
    + cbn. do 2 (apply coherent_quiet; [reflexivity|]).
      apply coherent_set_initializing, H.
    + apply coherent_construct, coherent_set_initializing, H.
Qed.

Lemma coherent_resume (point : InitPoint) (o : Outcome) (s : Sys) :
  coherent s -> coherent (fst (initialize_resume point o s)).
Proof.
  intros H. unfold initialize_resume. apply coherent_catch.
  destruct o, point; cbn [try_block_resume fst]; try exact H.
  apply coherent_construct, coherent_set_client_none, H.
Qed.

Lemma coherent_after (request : nat) (r : Sys * Completion) :
  coherent (fst r) -> coherent (fst (after_initialize request r)).
Proof.
  destruct r as [s []]; cbn; try exact id.
  apply coherent_quiet. reflexivity.
Qed.

Lemma coherent_link_device (request : nat) (s : Sys) :
  coherent s -> coherent (fst (link_device request s)).
Proof.
  intros H. unfold link_device.
  destruct (outstanding (qrCodeContent s)) as [qr|] eqn:E.
  - cbn. apply coherent_quiet; [reflexivity|].
    destruct (outstanding_stored _ E) as [Hq _].
    destruct H as [H1 H2 H4 H5]. split; cbn.
    + rewrite handshakes_app, H1. cbn. lia.
    + exact H2.
    + intros q H. apply in_or_app. left. auto.
    + intros event payload H. in_trace; [auto|].
      left. split; [reflexivity|discriminate].
  - apply coherent_after, coherent_initialize, coherent_quiet;
      [reflexivity | exact H].
Qed.

Lemma coherent_link_resume (request : nat) (point : InitPoint) (o : Outcome)
    (s : Sys) :
  coherent s -> coherent (fst (link_device_resume request point o s)).
Proof.
  intros H. apply coherent_after, coherent_resume, H.
Qed.

Lemma coherent_handle (c : nat) (e : ClientEvent) (s : Sys) :
  c < created s -> coherent s -> coherent (handle c e s).
Proof.
  intros Hc [H1 H2 H4 H5]. destruct e as [qr| |msg| ]; cbn [handle].
  - split; cbn.
    + rewrite !handshakes_app, H1. cbn. lia.
    + exact H2.
    + intros q H. inversion H; subst. rewrite !in_app_iff. cbn. auto.
    + intros event payload H. in_trace; [auto|].
      left. split; [reflexivity|discriminate].
  - assert (Hclient : forall held,
               client (mark_ready c s) = Some held -> S (cid held) = created s).
    { intros held. unfold mark_ready. destruct (client s) as [old|] eqn:E;
        [|rewrite E; discriminate].
      destruct (Nat.eqb_spec (cid old) c) as [Heq|Hne]; cbn.
      - intros H. inversion H; subst. cbn. exact (H2 old eq_refl).
      - rewrite E. intros H. inversion H; subst. exact (H2 held eq_refl). }
    assert (Hsame : trace (mark_ready c s) = trace s
                    /\ created (mark_ready c s) = created s).
    { unfold mark_ready. destruct (client s) as [old|]; [|auto].
      destruct (Nat.eqb (cid old) c); auto. }
    destruct Hsame as [Ht Hcr].
    split; cbn; rewrite ?Ht, ?Hcr.
    + rewrite !handshakes_app, H1. cbn. lia.
    + exact Hclient.
    + discriminate.
    + intros event payload H. in_trace; [auto|].
      right. left. auto.
  - split; cbn.
    + rewrite !handshakes_app, H1. cbn. lia.
    + exact H2.
    + discriminate.
    + intros event payload H. in_trace; [auto|].
      right. right. auto.
  - split; cbn.
    + rewrite !handshakes_app, H1. cbn. lia.
    + discriminate.
    + discriminate.
    + intros event payload H. in_trace. auto.
Qed.

Lemma coherent_step (e : Event) (srv srv' : Server) :
  coherent (sys srv) -> step e srv = Some srv' -> coherent (sys srv').
Proof.
  intros H Hstep. destruct e as [ |i o|c ev]; cbn [step] in Hstep.
  - pose proof (coherent_link_device (List.length (tasks srv)) H) as Hl.
    destruct (link_device _ _) as [s []]; inversion Hstep; subst; exact Hl.
  - destruct (nth_error (tasks srv) i) as [[point|point| | ]|];
      try discriminate.
    + pose proof (coherent_resume point o H) as Hl.
      destruct (initialize_resume _ _ _) as [s []];
        inversion Hstep; subst; exact Hl.
    + pose proof (coherent_link_resume i point o H) as Hl.
      destruct (link_device_resume _ _ _ _) as [s []];
        inversion Hstep; subst; exact Hl.
  - destruct (Nat.ltb_spec c (created (sys srv))) as [Hc|_]; [|discriminate].
    inversion Hstep; subst. exact (coherent_handle ev Hc H).
Qed.

Lemma coherent_run (events : list Event) :
  forall srv srv',
    coherent (sys srv) -> run events srv = Some srv' -> coherent (sys srv').
Proof.
  induction events as [|e events IH]; intros srv srv' Hc Hrun; simpl in Hrun.
  - inversion Hrun; subst. exact Hc.
  - destruct (step e srv) as [mid|] eqn:Hstep; [|discriminate].
    exact (IH mid srv' (@coherent_step e srv mid Hc Hstep) Hrun).
Qed.

Lemma coherent_initial : coherent initial.
Proof.
  split; cbn; try discriminate; try reflexivity. intros event payload [].
Qed.

Lemma reachable_coherent (srv : Server) :
  reachable srv -> coherent (sys srv).
Proof.
  intros [events H]. apply (@coherent_run events boot srv); [|exact H].
  exact (@coherent_initialize initial coherent_initial).
Qed.

(** X10. Every [Client] that was constructed had its handshake started,
    and when [client] holds an object it is the one constructed last: the
    server never keeps an earlier session. *)
Theorem client_is_the_latest :
  forall srv,
    reachable srv ->
    handshakes (trace (sys srv)) = created (sys srv)
    /\ forall c, client (sys srv) = Some c -> S (cid c) = created (sys srv).
Proof.
  intros srv H. destruct (reachable_coherent H) as [H1 H2 _ _]. auto.
Qed.

Lemma client_is_the_latest_witness :
  handshakes (trace (sys boot)) = created (sys boot)
  /\ forall c, client (sys boot) = Some c -> S (cid c) = created (sys boot).
Proof.
  apply (@client_is_the_latest boot). exists []. reflexivity.
Defined.

(** X11. Observers are only ever sent [qr] with a payload, [ready]
    without one, and [auth_failure] with the fixed text: no text of the
    backend and no [disconnected] notice is broadcast. *)
Theorem broadcasts_are_fixed :
  forall srv event payload,
    reachable srv ->
    In (IoEmit event payload) (trace (sys srv)) ->
    known_broadcast event payload.
Proof.
  intros srv event payload H.
  exact (broadcasts_are_known (reachable_coherent H) event payload).
Qed.

Lemma broadcasts_are_fixed_witness :
  match run [ClientEmits 0 (AuthFailure (js "session rejected"))] boot with
  | Some srv =>
      known_broadcast (js "auth_failure")
        (Some (js "Authentication failed. Please re-scan the QR code."))
  | None => False
  end.
Proof.
  cbn [run step boot].
  apply (@broadcasts_are_fixed
           {| sys := handle 0 (AuthFailure (js "session rejected")) (sys boot);
              tasks := tasks boot |}).
  - exists [ClientEmits 0 (AuthFailure (js "session rejected"))]. reflexivity.
  - cbn. auto 10.
Defined.

(** X13. The payload that [GET /link-device] re-emits has been broadcast
    before: whatever is stored in [qrCodeContent] was emitted as [qr] when
    it was stored. *)
Theorem stored_payload_was_broadcast :
  forall srv q,
    reachable srv ->
    qrCodeContent (sys srv) = Some q ->
    In (IoEmit (js "qr") (Some q)) (trace (sys srv)).
Proof.
  intros srv q H Hq. exact (payload_was_broadcast (reachable_coherent H) Hq).
Qed.

Lemma stored_payload_was_broadcast_witness :
  match run [ClientEmits 0 (Qr (js "2@token"))] boot with
  | Some srv => In (IoEmit (js "qr") (Some (js "2@token"))) (trace (sys srv))
  | None => False
  end.
Proof.
  cbn [run step boot].
  apply (@stored_payload_was_broadcast
           {| sys := handle 0 (Qr (js "2@token")) (sys boot);
              tasks := tasks boot |}).
  - exists [ClientEmits 0 (Qr (js "2@token"))]. reflexivity.
  - reflexivity.
Defined.

(** ** After a handshake that succeeded *)

Lemma none_suspended (l : list Task) (i : nat) (t : Task) :
  List.length (filter suspended l) = 0 ->
  nth_error l i = Some t ->
  suspended t = false.
Proof.
  intros Hzero Hnth.
  pose proof (in_flight_update l i Finished Hnth) as Hu.
  unfold weight in Hu. destruct (suspended t); [cbn in Hu; lia | reflexivity].
Qed.

Lemma handle_keeps (c : nat) (e : ClientEvent) (s : Sys) :
  isClientInitializing (handle c e s) = isClientInitializing s
  /\ handshakes (trace (handle c e s)) = handshakes (trace s)
  /\ created (handle c e s) = created s
  /\ (client s = None -> client (handle c e s) = None).
Proof.
  assert (Hready : isClientInitializing (mark_ready c s) = isClientInitializing s
                   /\ trace (mark_ready c s) = trace s
                   /\ created (mark_ready c s) = created s
                   /\ (client s = None -> client (mark_ready c s) = None)).
  { unfold mark_ready. destruct (client s) as [held|] eqn:E;
      [|repeat split; auto].
    destruct (Nat.eqb (cid held) c); cbn; repeat split; discriminate. }
  destruct Hready as (Hf & Ht & Hc & Hn).
  destruct e as [qr| |msg| ]; cbn; rewrite ?Hf, ?Ht, ?Hc, ?handshakes_app;
    cbn; rewrite ?Nat.add_0_r; repeat split; auto.
Qed.

Lemma settled_step (e : Event) (srv srv' : Server) :
  isClientInitializing (sys srv) = true ->
  in_flight srv = 0 ->
  step e srv = Some srv' ->
  isClientInitializing (sys srv') = true
  /\ in_flight srv' = 0
  /\ handshakes (trace (sys srv')) = handshakes (trace (sys srv))
  /\ created (sys srv') = created (sys srv)
  /\ (client (sys srv) = None -> client (sys srv') = None).
Proof.
  intros Hflag Hzero Hstep. unfold in_flight in *.
  destruct e as [ |i o|c ev]; cbn [step] in Hstep.
  - unfold link_device in Hstep.
    destruct (outstanding (qrCodeContent (sys srv))) as [qr|].
    + inversion Hstep; subst; clear Hstep. cbn.
      rewrite in_flight_app, !handshakes_app. cbn. repeat split; auto; lia.
    + rewrite initialize_guarded in Hstep by exact Hflag.
      inversion Hstep; subst; clear Hstep. cbn.
      rewrite in_flight_app, !handshakes_app. cbn. repeat split; auto; lia.
  - destruct (nth_error (tasks srv) i) as [t|] eqn:Hnth; [|discriminate].
    pose proof (@none_suspended _ _ _ Hzero Hnth) as Hs.
    destruct t; discriminate.
  - destruct (c <? created (sys srv)); [|discriminate].
    inversion Hstep; subst; clear Hstep. cbn.
    destruct (handle_keeps c ev (sys srv)) as (Hf & Hh & Hc & Hn).
    rewrite Hf. auto.
Qed.

(** X14. Once a handshake has succeeded (the guard is set and no call is
    waiting), nothing that happens later releases the guard: no further
    client is constructed and no further handshake is started, and after
    [disconnected] has reset [client] it stays [null], whatever requests
    and events follow. *)
Theorem no_handshake_after_success :
  forall events srv srv',
    isClientInitializing (sys srv) = true ->
    in_flight srv = 0 ->
    run events srv = Some srv' ->
    isClientInitializing (sys srv') = true
    /\ in_flight srv' = 0
    /\ handshakes (trace (sys srv')) = handshakes (trace (sys srv))
    /\ created (sys srv') = created (sys srv)
    /\ (client (sys srv) = None -> client (sys srv') = None).
Proof.
  induction events as [|e events IH]; intros srv srv' Hflag Hzero Hrun;
    simpl in Hrun.
  - inversion Hrun; subst. auto.
  - destruct (step e srv) as [mid|] eqn:Hstep; [|discriminate].
    destruct (@settled_step e srv mid Hflag Hzero Hstep) as (Hf & Hz & Hh & Hc & Hn).
    destruct (IH mid srv' Hf Hz Hrun) as (Hf' & Hz' & Hh' & Hc' & Hn').
    repeat split; auto; congruence.
Qed.

Lemma no_handshake_after_success_witness :
  match run [GetLinkDevice; ClientEmits 0 (Qr (js "2@token")); GetLinkDevice]
          after_success with
  | Some srv' =>
      isClientInitializing (sys srv') = true
      /\ in_flight srv' = 0
      /\ handshakes (trace (sys srv')) = handshakes (trace (sys after_success))
      /\ created (sys srv') = created (sys after_success)
      /\ (client (sys after_success) = None -> client (sys srv') = None)
  | None => False
  end.
Proof.
  destruct (run [GetLinkDevice; ClientEmits 0 (Qr (js "2@token")); GetLinkDevice]
              after_success) as [srv'|] eqn:E.
  - exact (@no_handshake_after_success _ after_success srv'
             eq_refl eq_refl E).
  - cbv in E. discriminate E.
Defined.

(** ** What the requests get *)

Lemma update_other (l : list Task) :
  forall i j t, i <> j -> nth_error (update i t l) j = nth_error l j.
Proof.
  induction l as [|x l IH]; intros [|i] [|j] t H; simpl; try reflexivity.
  - contradiction.
  - apply IH. lia.
Qed.

Lemma update_length (l : list Task) :
  forall i t, List.length (update i t l) = List.length l.
Proof.
  induction l as [|x l IH]; intros [|i] t; simpl; auto.
Qed.

(** What a run of the session code adds to the trace, as far as replies
    go. *)
Lemma resume_adds (point : InitPoint) (o : Outcome) (s : Sys) :
  exists ext,
    trace (fst (initialize_resume point o s)) = trace s ++ ext
    /\ forall i, replies i ext = [].
Proof.
  destruct point, o; cbn; rewrite <- ?app_assoc;
    try (eexists; split; [reflexivity|]; reflexivity).
  exists []. rewrite app_nil_r. auto.
Qed.

Lemma handle_adds (c : nat) (e : ClientEvent) (s : Sys) :
  exists ext,
    trace (handle c e s) = trace s ++ ext /\ forall i, replies i ext = [].
Proof.
  assert (Ht : trace (mark_ready c s) = trace s).
  { unfold mark_ready. destruct (client s) as [held|]; [|reflexivity].
    destruct (Nat.eqb (cid held) c); reflexivity. }
  destruct e; cbn; rewrite ?Ht, <- ?app_assoc;
    eexists; split; reflexivity.
Qed.

Lemma link_adds (request : nat) (s : Sys) :
  exists ext,
    trace (fst (link_device request s)) = trace s ++ ext
    /\ (forall i, i <> request -> replies i ext = [])
    /\ match snd (link_device request s) with
       | Returned =>
           exists reply, replies request ext = [reply] /\ status reply = 200
       | _ => replies request ext = []
       end.
Proof.
  unfold link_device, initializeWhatsAppClient, try_block.
  destruct (outstanding (qrCodeContent s)); cbn;
    [|destruct (isClientInitializing s); cbn; [|destruct (client s); cbn]];
    rewrite <- ?app_assoc;
    (eexists; split; [reflexivity|]); cbn; rewrite ?Nat.eqb_refl;
    (split; [intros i Hi; destruct (Nat.eqb_spec request i); congruence|]);
    eauto.
Qed.

Lemma link_resume_adds (request : nat) (point : InitPoint) (o : Outcome)
    (s : Sys) :
  exists ext,
    trace (fst (link_device_resume request point o s)) = trace s ++ ext
    /\ (forall i, i <> request -> replies i ext = [])
    /\ match snd (link_device_resume request point o s) with
       | Returned =>
           exists reply, replies request ext = [reply] /\ status reply = 200
       | _ => replies request ext = []
       end.
Proof.
  destruct point, o; cbn; rewrite <- ?app_assoc;
    (eexists; split; [reflexivity|]); cbn; rewrite ?Nat.eqb_refl;
    (split; [intros i Hi; destruct (Nat.eqb_spec request i); congruence|]);
    eauto.
Qed.

Lemma length_zero_nil (A : Type) (l : list A) : List.length l = 0 -> l = [].
Proof. destruct l; [reflexivity|discriminate]. Qed.

Lemma boot_orderly : orderly boot.
Proof.
  split; cbn.
  - eexists. split; [reflexivity|discriminate].
  - intros [|i] p; discriminate.
  - intros [|[|i]] t H; inversion H. reflexivity.
  - intros [|[|i]] t H; inversion H. reflexivity.
  - reflexivity.
  - intros i reply [].
Qed.

Lemma orderly_emits (c : nat) (e : ClientEvent) (srv : Server) :
  orderly srv ->
  orderly {| sys := handle c e (sys srv); tasks := tasks srv |}.
Proof.
  intros [Hfirst Hothers Hdestroy Hcount Hnone H200].
  destruct (handle_adds c e (sys srv)) as (ext & Htrace & Hext).
  split; cbn [sys tasks]; try assumption.
  - intros i t Hnth. rewrite Htrace, replies_app, Hext, app_nil_r.
    exact (Hcount i t Hnth).
  - intros i Hi. rewrite Htrace, replies_app, Hext, app_nil_r.
    exact (Hnone i Hi).
  - intros i reply. rewrite Htrace, replies_app, Hext, app_nil_r.
    exact (H200 i reply).
Qed.

Lemma orderly_request (srv srv' : Server) :
  consistent srv -> orderly srv ->
  step GetLinkDevice srv = Some srv' -> orderly srv'.
Proof.
  intros Hcons [Hfirst Hothers Hdestroy Hcount Hnone H200] Hstep.
  cbn [step] in Hstep. set (n := List.length (tasks srv)) in *.
  destruct (link_adds n (sys srv)) as (ext & Htrace & Hother & Hown).
  assert (Hpoint : forall p, snd (link_device n (sys srv)) = Suspended p ->
                             p = AwaitInitialize).
  { intros p. unfold link_device.
    destruct (outstanding (qrCodeContent (sys srv))); [discriminate|].
    destruct (isClientInitializing (sys srv)) eqn:Hflag.
    - rewrite initialize_guarded by exact Hflag. discriminate.
    - destruct (guard_clear Hcons Hflag) as [_ Hclient].
      rewrite initialize_absent by (cbn; assumption). cbn. congruence. }
  assert (Hpos : 1 <= n).
  { destruct Hfirst as (t & Ht & _). subst n.
    destruct (tasks srv); [discriminate|simpl; lia]. }
  destruct (link_device n (sys srv)) as [s completion].
  cbn [fst snd] in *.
  set (t := snd (settle LinkCall (s, completion))).
  assert (Hsrv : srv' = {| sys := s; tasks := tasks srv ++ [t] |}).
  { subst t. destruct completion; inversion Hstep; reflexivity. }
  assert (Ht : destroying t = false /\ (forall p, t <> InitCall p)
               /\ List.length (replies n ext) = answered n t).
  { subst t. destruct completion as [p| | ]; cbn.
    - rewrite (Hpoint p eq_refl), Hown. repeat split; discriminate.
    - destruct Hown as (reply & -> & _). destruct n; [lia|].
      repeat split; discriminate.
    - rewrite Hown. destruct n; repeat split; discriminate. }
  destruct Ht as (Htd & Hti & Hta). clearbody t. subst srv'. clear Hstep.
  assert (Hnth : forall i u, nth_error (tasks srv ++ [t]) i = Some u ->
                   (i < n /\ nth_error (tasks srv) i = Some u)
                   \/ (i = n /\ u = t)).
  { intros i u H. destruct (Nat.lt_ge_cases i n) as [Hlt|Hge].
    - left. rewrite nth_error_app1 in H by exact Hlt. auto.
    - right. rewrite nth_error_app2 in H by exact Hge. fold n in H.
      destruct (i - n) as [|k] eqn:E; [|destruct k; discriminate].
      inversion H. split; [lia|reflexivity]. }
  split; cbn [sys tasks].
  - destruct Hfirst as (t0 & Ht0 & Hnot). exists t0. split; [|exact Hnot].
    rewrite nth_error_app1; [exact Ht0|]. fold n. lia.
  - intros i p H. destruct (Hnth _ _ H) as [[_ Hold]|[_ Hnew]].
    + exact (Hothers i p Hold).
    + exact (Hti p (eq_sym Hnew)).
  - intros i u H. destruct (Hnth _ _ H) as [[_ Hold]|[_ Hnew]].
    + exact (Hdestroy i u Hold).
    + subst u. exact Htd.
  - intros i u H. rewrite Htrace, replies_app, length_app.
    destruct (Hnth _ _ H) as [[Hlt Hold]|[Heq Hnew]].
    + rewrite (Hother i) by lia. rewrite (Hcount i u Hold). simpl. lia.
    + subst i u. rewrite (Hnone n) by (subst n; lia). simpl. exact Hta.
  - intros i Hi. rewrite length_app in Hi. simpl in Hi. fold n in Hi.
    rewrite Htrace, replies_app, (Hother i) by lia.
    rewrite (Hnone i) by (fold n; lia). reflexivity.
  - intros i reply H. rewrite Htrace, replies_app in H.
    apply in_app_or in H. destruct H as [H|H]; [exact (H200 i reply H)|].
    destruct (Nat.eq_dec i n) as [->|Hne];
      [|rewrite (Hother i Hne) in H; destruct H].
    destruct completion as [p| | ]; try (rewrite Hown in H; destruct H).
    destruct Hown as (r & Hr & Hs). rewrite Hr in H.
    destruct H as [<-|[]]. exact Hs.
Qed.

Lemma orderly_settles (i : nat) (o : Outcome) (srv srv' : Server) :
  orderly srv -> step (Settles i o) srv = Some srv' -> orderly srv'.
Proof.
  intros [Hfirst Hothers Hdestroy Hcount Hnone H200] Hstep.
  cbn [step] in Hstep.
  destruct (nth_error (tasks srv) i) as [old|] eqn:Hnth; [|discriminate].
  pose proof (Hdestroy i old Hnth) as Hold.
  assert (Hshape :
            exists s ext t,
              srv' = {| sys := s; tasks := update i t (tasks srv) |}
              /\ trace s = trace (sys srv) ++ ext
              /\ (forall j, j <> i -> replies j ext = [])
              /\ (forall r, In r (replies i ext) -> status r = 200)
              /\ List.length (replies i ext) + answered i old = answered i t
              /\ destroying t = false
              /\ (forall p, old <> LinkCall p -> t <> LinkCall p)
              /\ (forall p, old <> InitCall p -> t <> InitCall p)).
  { destruct old as [[| ]|[| ]| | ]; try discriminate.
    - (* the call of line 177 *)
      destruct i as [|i]; [|destruct (Hothers i _ Hnth)].
      destruct (resume_adds AwaitInitialize o (sys srv)) as (ext & Ht & He).
      destruct o; cbn in Hstep, Ht; inversion Hstep; subst; clear Hstep;
        do 3 eexists; (split; [reflexivity|]); cbn [sys trace];
        (split; [exact Ht|]); rewrite !He; cbn;
        repeat split; try discriminate; auto; intros r [].
    - (* a handler *)
      destruct i as [|i];
        [destruct Hfirst as (t0 & Ht0 & Hnot); rewrite Hnth in Ht0;
         inversion Ht0; subst; destruct (Hnot _ eq_refl)|].
      destruct (link_resume_adds (S i) AwaitInitialize o (sys srv))
        as (ext & Ht & Hother & Hown).
      destruct o; cbn in Hstep, Ht, Hown; inversion Hstep; subst; clear Hstep;
        destruct Hown as (reply & Hr & Hs);
        do 3 eexists; (split; [reflexivity|]); cbn [sys trace];
        (split; [exact Ht|]); rewrite !Hr; cbn;
        repeat split; try discriminate; auto;
        intros r [<-|[]]; exact Hs. }
  destruct Hshape
    as (s & ext & t & -> & Htrace & Hother & Hok & Hlen & Htd & Hlink & Hinit).
  clear Hstep. split; cbn [sys tasks].
  - destruct Hfirst as (t0 & Ht0 & Hnot).
    destruct (Nat.eq_dec i 0) as [->|Hne].
    + exists t. rewrite (update_nth _ _ _ Hnth). split; [reflexivity|].
      rewrite Hnth in Ht0. inversion Ht0; subst. intros p.
      apply Hlink. apply Hnot.
    + exists t0. rewrite update_other by exact Hne. auto.
  - intros j p H. destruct (Nat.eq_dec i (S j)) as [->|Hne].
    + rewrite (update_nth _ _ _ Hnth) in H. inversion H; subst.
      apply (Hinit p); [|reflexivity]. intros ->. exact (Hothers j p Hnth).
    + rewrite update_other in H by exact Hne. exact (Hothers j p H).
  - intros j u H. destruct (Nat.eq_dec i j) as [->|Hne].
    + rewrite (update_nth _ _ _ Hnth) in H. inversion H; subst. exact Htd.
    + rewrite update_other in H by exact Hne. exact (Hdestroy j u H).
  - intros j u H. rewrite Htrace, replies_app, length_app.
    destruct (Nat.eq_dec i j) as [->|Hne].
    + rewrite (update_nth _ _ _ Hnth) in H. inversion H; subst.
      rewrite (Hcount j old Hnth). lia.
    + rewrite update_other in H by exact Hne.
      rewrite (Hother j) by auto. rewrite (Hcount j u H). simpl. lia.
  - intros j Hj. rewrite update_length in Hj.
    assert (Hlt : i < List.length (tasks srv))
      by (apply nth_error_Some; congruence).
    rewrite Htrace, replies_app, (Hother j) by lia.
    rewrite (Hnone j Hj). reflexivity.
  - intros j reply H. rewrite Htrace, replies_app in H.
    apply in_app_or in H. destruct H as [H|H]; [exact (H200 j reply H)|].
    destruct (Nat.eq_dec j i) as [->|Hne]; [exact (Hok reply H)|].
    rewrite (Hother j Hne) in H. destruct H.
Qed.

Lemma orderly_step (e : Event) (srv srv' : Server) :
  consistent srv -> orderly srv -> step e srv = Some srv' -> orderly srv'.
Proof.
  intros Hcons Hord Hstep. destruct e as [ |i o|c ev].
  - exact (@orderly_request srv srv' Hcons Hord Hstep).
  - exact (@orderly_settles i o srv srv' Hord Hstep).
  - cbn [step] in Hstep. destruct (c <? created (sys srv)); [|discriminate].
    inversion Hstep; subst. exact (@orderly_emits c ev srv Hord).
Qed.

Lemma orderly_run (events : list Event) :
  forall srv srv',
    consistent srv -> orderly srv ->
    run events srv = Some srv' -> orderly srv'.
Proof.
  induction events as [|e events IH]; intros srv srv' Hc Ho Hrun;
    simpl in Hrun.
  - inversion Hrun; subst. exact Ho.
  - destruct (step e srv) as [mid|] eqn:Hstep; [|discriminate].
    exact (IH mid srv' (@step_consistent e srv mid Hc Hstep)
             (@orderly_step e srv mid Hc Ho Hstep) Hrun).
Qed.

Lemma reachable_orderly (srv : Server) : reachable srv -> orderly srv.
Proof.
  intros [events H].
  exact (@orderly_run events boot srv boot_consistent boot_orderly H).
Qed.

(** X15. Every [GET /link-device] request is answered at most once, and
    only ever with status 200: a request whose handler is still waiting
    at line 165 has no reply yet, and one whose handler has finished has
    exactly one. *)
Theorem requests_answered_once :
  forall srv i,
    reachable srv ->
    List.length (replies i (trace (sys srv))) <= 1
    /\ (forall reply,
          In reply (replies i (trace (sys srv))) -> status reply = 200)
    /\ (forall p,
          nth_error (tasks srv) i = Some (LinkCall p) ->
          replies i (trace (sys srv)) = [])
    /\ (1 <= i ->
        nth_error (tasks srv) i = Some Finished ->
        List.length (replies i (trace (sys srv))) = 1).
Proof.
  intros srv i H.
  destruct (reachable_orderly H) as [_ _ _ Hcount Hnone H200].
  repeat split.
  - destruct (nth_error (tasks srv) i) as [t|] eqn:E.
    + rewrite (Hcount i t E). destruct t, i; cbn; lia.
    + apply nth_error_None in E. rewrite (Hnone i E). cbn. lia.
  - exact (H200 i).
  - intros p E. apply length_zero_nil. exact (Hcount i _ E).
  - intros Hi E. rewrite (Hcount i _ E). destruct i; [lia|reflexivity].
Qed.

Lemma requests_answered_once_witness :
  match run [GetLinkDevice; Settles 1 Fulfilled] after_failure with
  | Some srv =>
      List.length (replies 1 (trace (sys srv))) <= 1
      /\ (forall reply,
            In reply (replies 1 (trace (sys srv))) -> status reply = 200)
      /\ (forall p,
            nth_error (tasks srv) 1 = Some (LinkCall p) ->
            replies 1 (trace (sys srv)) = [])
      /\ (1 <= 1 ->
          nth_error (tasks srv) 1 = Some Finished ->
          List.length (replies 1 (trace (sys srv))) = 1)
  | None => False
  end.
Proof.
  destruct (run [GetLinkDevice; Settles 1 Fulfilled] after_failure)
    as [srv|] eqn:E.
  - apply (@requests_answered_once srv 1).
    exists ([Settles 0 Rejected] ++ [GetLinkDevice; Settles 1 Fulfilled]).
    exact E.
  - cbv in E. discriminate E.
Defined.

(** X16. The teardown of lines 37-41 never runs: on every reachable
    server [client.destroy()] has not been called and no call waits at
    line 39, because the guard is only ever clear when [client] is
    [null]. *)
Theorem teardown_is_dead_code :
  forall srv,
    reachable srv ->
    (isClientInitializing (sys srv) = false -> client (sys srv) = None)
    /\ (forall c, ~ In (ClientDestroy c) (trace (sys srv)))
    /\ (forall i,
          nth_error (tasks srv) i <> Some (InitCall AwaitDestroy)
          /\ nth_error (tasks srv) i <> Some (LinkCall AwaitDestroy)).
Proof.
  intros srv H.
  pose proof (reachable_consistent H) as Hc.
  pose proof (reachable_orderly H) as Ho.
  repeat split.
  - intros Hflag. exact (proj2 (guard_clear Hc Hflag)).
  - exact (none_destroyed Hc).
  - intros E. pose proof (never_destroying Ho i E) as Hd. discriminate Hd.
  - intros E. pose proof (never_destroying Ho i E) as Hd. discriminate Hd.
Qed.

Lemma teardown_is_dead_code_witness :
  (isClientInitializing (sys after_failure) = false ->
   client (sys after_failure) = None)
  /\ (forall c, ~ In (ClientDestroy c) (trace (sys after_failure)))
  /\ (forall i,
        nth_error (tasks after_failure) i <> Some (InitCall AwaitDestroy)
        /\ nth_error (tasks after_failure) i <> Some (LinkCall AwaitDestroy)).
Proof.
  apply (@teardown_is_dead_code after_failure).
  exists [Settles 0 Rejected]. reflexivity.
Defined.

(** X17. After the start of the process a handshake is started in one
    way only: by a [GET /link-device] request that finds no payload
    stored, the guard clear and [client] reset, that is after the
    previous handshake was rejected; and one step starts at most one. *)
Theorem handshake_started_by_request :
  forall srv e srv',
    reachable srv ->
    step e srv = Some srv' ->
    handshakes (trace (sys srv')) <> handshakes (trace (sys srv)) ->
    e = GetLinkDevice
    /\ outstanding (qrCodeContent (sys srv)) = None
    /\ isClientInitializing (sys srv) = false
    /\ client (sys srv) = None
    /\ in_flight srv = 0
    /\ handshakes (trace (sys srv')) = S (handshakes (trace (sys srv))).
Proof.
  intros srv e srv' H Hstep Hmore.
  pose proof (reachable_consistent H) as Hc.
  pose proof (reachable_orderly H) as Ho.
  destruct e as [ |i o|c ev]; cbn [step] in Hstep.
  - unfold link_device in Hstep.
    destruct (outstanding (qrCodeContent (sys srv))) as [qr|] eqn:Hq.
    { inversion Hstep; subst. exfalso. apply Hmore. cbn.
      rewrite !handshakes_app. cbn. lia. }
    destruct (isClientInitializing (sys srv)) eqn:Hflag.
    { rewrite initialize_guarded in Hstep by exact Hflag.
      inversion Hstep; subst. exfalso. apply Hmore. cbn.
      rewrite !handshakes_app. cbn. lia. }
    destruct (guard_clear Hc Hflag) as [Hzero Hclient].
    rewrite initialize_absent in Hstep by (cbn; assumption).
    inversion Hstep; subst. cbn. rewrite !handshakes_app. cbn.
    repeat split; auto; lia.
  - exfalso. apply Hmore.
    destruct (nth_error (tasks srv) i) as [old|] eqn:Hnth; [|discriminate].
    pose proof (never_destroying Ho i Hnth) as Hd.
    destruct old as [[| ]|[| ]| | ]; try discriminate;
      destruct o; cbn in Hstep; inversion Hstep; subst; cbn;
      rewrite ?handshakes_app; cbn; lia.
  - exfalso. apply Hmore.
    destruct (c <? created (sys srv)); [|discriminate].
    inversion Hstep; subst. cbn.
    exact (proj1 (proj2 (handle_keeps c ev (sys srv)))).
Qed.

Lemma handshake_started_by_request_witness :
  match step GetLinkDevice after_failure with
  | Some srv' =>
      GetLinkDevice = GetLinkDevice
      /\ outstanding (qrCodeContent (sys after_failure)) = None
      /\ isClientInitializing (sys after_failure) = false
      /\ client (sys after_failure) = None
      /\ in_flight after_failure = 0
      /\ handshakes (trace (sys srv'))
         = S (handshakes (trace (sys after_failure)))
  | None => False
  end.
Proof.
  destruct (step GetLinkDevice after_failure) as [srv'|] eqn:E.
  - apply (@handshake_started_by_request after_failure GetLinkDevice srv').
    + exists [Settles 0 Rejected]. reflexivity.
    + exact E.
    + cbv in E. inversion E; subst. cbn. discriminate.
  - cbv in E. discriminate E.
Defined.
